(** * mini-it-agent: the agent loop of [minisweagent/agents/default.py]

    A shallow embedding of [DefaultAgent] (template rendering, action
    parsing, action execution, completion detection and the run loop)
    and the properties of its specification.

    Python values are modelled as they are in the source: a [str] is a
    sequence of Unicode code points, [bytes] a sequence of bytes, a
    [dict] with string keys a finite map, an exception a value of a
    sum type.  The two capabilities ([Model], [Environment]) and the
    libraries the module imports (jinja2, chardet, the codec registry)
    are interfaces; the agent is written against them. *)

From Stdlib Require Import ZArith NArith List Bool Floats Lia DecimalString.
From Stdlib.Strings Require Import Ascii String Byte.
From stdpp Require Import gmap strings list fin_maps.

#[local] Set Warnings "-register-all".
#[local] Open Scope Z_scope.

(** ** Python text *)

(** A [str]: the sequence of its code points. *)
Abbreviation str := (list N).

(** A [str] literal whose characters are all ASCII. *)
Definition lit (s : string) : str :=
  (λ c : ascii, N_of_ascii c) <$> list_ascii_of_string s.

Module Py.

(** [Py_UNICODE_ISSPACE]: the characters [str.strip] removes and the
    pattern [\s] matches on a [str]. *)
Definition isspace (c : N) : bool :=
  ((9 <=? c) && (c <=? 13) || (28 <=? c) && (c <=? 32)
   || (c =? 133) || (c =? 160) || (c =? 5760)
   || (8192 <=? c) && (c <=? 8202)
   || (c =? 8232) || (c =? 8233) || (c =? 8239) || (c =? 8287)
   || (c =? 12288))%N.

(** [Py_UNICODE_ISLINEBREAK]: the line boundaries of [str.splitlines],
    next to the pair CR LF. *)
Definition islinebreak (c : N) : bool :=
  ((10 <=? c) && (c <=? 13) || (28 <=? c) && (c <=? 30)
   || (c =? 133) || (c =? 8232) || (c =? 8233))%N.

(** [s.lstrip()] *)
Fixpoint lstrip (s : str) : str :=
  match s with
  | c :: s' => if isspace c then lstrip s' else s
  | [] => []
  end.

(** [s.rstrip()] *)
Definition rstrip (s : str) : str := rev (lstrip (rev s)).

(** [s.strip()] *)
Definition strip (s : str) : str := rstrip (lstrip s).

(** [s.splitlines(keepends=True)]: a character that is no line
    boundary belongs to the line of what follows it. *)
Fixpoint splitlines (s : str) : list str :=
  match s with
  | [] => []
  | c :: s' =>
      if (c =? 13)%N then
        match s' with
        | c2 :: s'' =>
            if (c2 =? 10)%N then [c; c2] :: splitlines s''
            else [c] :: splitlines s'
        | [] => [[c]]
        end
      else if islinebreak c then [c] :: splitlines s'
      else match splitlines s' with
           | [] => [[c]]
           | l :: ls => (c :: l) :: ls
           end
  end.

(** [join] on the empty separator *)
Definition join (ls : list str) : str := concat ls.

End Py.

(** ** Regular expressions, as far as [parse_action] uses them *)

Module Re.

(** Patterns: a literal, a starred single-character class (greedy
    [c*] or lazy [c*?]), concatenation and a capture group. *)
Inductive regex :=
| Lit (s : str)
| Star (greedy : bool) (cls : N → bool)
| Cat (r1 r2 : regex)
| Group (r : regex).

Fixpoint strip_prefix (p s : str) : option str :=
  match p, s with
  | [], _ => Some s
  | a :: p', b :: s' => if (a =? b)%N then strip_prefix p' s' else None
  | _ :: _, [] => None
  end.

(** A match is the rest of the subject after it and the captures. *)
Abbreviation found := (option (str * list str)).

(** [c*]: as many characters as possible first, then one less, ... *)
Fixpoint star_greedy (cls : N → bool) (s : str) (k : str → found) : found :=
  match s with
  | c :: s' =>
      if cls c then
        match star_greedy cls s' k with
        | Some m => Some m
        | None => k s
        end
      else k s
  | [] => k []
  end.

(** [c*?]: as few characters as possible first, then one more, ... *)
Fixpoint star_lazy (cls : N → bool) (s : str) (k : str → found) : found :=
  match k s with
  | Some m => Some m
  | None =>
      match s with
      | c :: s' => if cls c then star_lazy cls s' k else None
      | [] => None
      end
  end.

(** The backtracking matcher, anchored at the head of [s]: the first
    success in the engine's order of alternatives. *)
Fixpoint rmatch (r : regex) (s : str) (caps : list str)
    (k : str → list str → found) : found :=
  match r with
  | Lit p =>
      match strip_prefix p s with
      | Some s' => k s' caps
      | None => None
      end
  | Star true cls => star_greedy cls s (λ s', k s' caps)
  | Star false cls => star_lazy cls s (λ s', k s' caps)
  | Cat r1 r2 => rmatch r1 s caps (λ s1 caps1, rmatch r2 s1 caps1 k)
  | Group r1 =>
      rmatch r1 s caps
        (λ s' caps', k s' (caps' ++ [take (length s - length s') s]))
  end.

Definition match_here (r : regex) (s : str) : found :=
  rmatch r s [] (λ s' caps, Some (s', caps)).

(** [re.findall] for a pattern with one group that matches no empty
    string: scan from the left, after a match go on behind it.
    [skip] counts the characters of the last match still to pass. *)
Fixpoint findall_from (r : regex) (s : str) (skip : nat) : list str :=
  match s with
  | [] => []
  | _ :: s' =>
      match skip with
      | S n => findall_from r s' n
      | O =>
          match match_here r s with
          | Some (rest, caps) =>
              default [] (head caps)
                :: findall_from r s' (length s - length rest - 1)
          | None => findall_from r s' 0
          end
      end
  end.

Definition findall (r : regex) (s : str) : list str := findall_from r s 0.

(** [.] under [re.DOTALL] *)
Definition any (c : N) : bool := true.

End Re.

(** ** Python values and exceptions *)

(** The objects that travel through the agent: responses, actions,
    outputs, messages and template variables. *)
Inductive val :=
| VNone
| VInt (z : Z)
| VFloat (f : float)
| VStr (s : str)
| VBytes (b : list byte)
| VList (l : list val)
| VDict (d : gmap string val).

(** A [dict] with [str] keys. *)
Abbreviation dict := (gmap string val).

(** [a | b] on dicts: the right operand wins. *)
Definition dict_or (a b : dict) : dict := b ∪ a.

(** The keyword arguments of a call that unpacks the dicts [ds] one
    after the other: a name given twice is a [TypeError]. *)
Fixpoint spread (ds : list dict) : option dict :=
  match ds with
  | [] => Some ∅
  | d :: ds' =>
      match spread ds' with
      | Some rest => if bool_decide (d ##ₘ rest) then Some (d ∪ rest) else None
      | None => None
      end
  end.

(** What [subprocess.TimeoutExpired.output] holds: nothing, the bytes
    or (in text mode) the text captured before the timeout. *)
Inductive captured :=
| NoOutput
| BytesOutput (b : list byte)
| TextOutput (s : str).

(** Exceptions from outside the agent's own hierarchy. *)
Inductive pyerr :=
| TimeoutExpired (output : captured)   (* subprocess.TimeoutExpired *)
| TimeoutError
| UnicodeDecodeError
| LookupError
| KeyError
| TypeError
| AttributeError
| UndefinedError                       (* jinja2.exceptions.UndefinedError *)
| OtherError (cls : string).

(** The exceptions [default.py] declares, and the others. *)
Inductive exn :=
| FormatError (msg : str)
| ExecutionTimeoutError (msg : str)
| Submitted (msg : str)
| LimitsExceeded
| PyErr (e : pyerr).

(** [isinstance(e, NonTerminatingException)] *)
Definition is_nonterminating (e : exn) : bool :=
  match e with
  | FormatError _ | ExecutionTimeoutError _ => true
  | _ => false
  end.

(** [isinstance(e, TerminatingException)] *)
Definition is_terminating (e : exn) : bool :=
  match e with
  | Submitted _ | LimitsExceeded => true
  | _ => false
  end.

(** [str(e)] for the agent's exceptions: the one argument they were
    built with, the empty string for [LimitsExceeded()].  The agent
    asks it of its own exceptions only; the text of the others is not
    part of the model. *)
Definition exn_str (e : exn) : str :=
  match e with
  | FormatError m | ExecutionTimeoutError m | Submitted m => m
  | LimitsExceeded => []
  | PyErr _ => []
  end.

Definition pyerr_name (e : pyerr) : string :=
  match e with
  | TimeoutExpired _ => "TimeoutExpired"
  | TimeoutError => "TimeoutError"
  | UnicodeDecodeError => "UnicodeDecodeError"
  | LookupError => "LookupError"
  | KeyError => "KeyError"
  | TypeError => "TypeError"
  | AttributeError => "AttributeError"
  | UndefinedError => "UndefinedError"
  | OtherError cls => cls
  end.

(** [type(e).__name__] *)
Definition exn_name (e : exn) : string :=
  match e with
  | FormatError _ => "FormatError"
  | ExecutionTimeoutError _ => "ExecutionTimeoutError"
  | Submitted _ => "Submitted"
  | LimitsExceeded => "LimitsExceeded"
  | PyErr e => pyerr_name e
  end.

(** A call returns or raises. *)
Inductive result (A : Type) :=
| Ok (a : A)
| Raise (e : exn).
Arguments Ok {A} a.
Arguments Raise {A} e.

Definition lift {A} (r : pyerr + A) : result A :=
  match r with
  | inl e => Raise (PyErr e)
  | inr a => Ok a
  end.

Definition rbind {A B} (r : result A) (k : A → result B) : result B :=
  match r with
  | Ok a => k a
  | Raise e => Raise e
  end.

(** ** The interfaces the agent is written against

    A capability or a library raises exceptions of its own ([pyerr]),
    not the four the agent declares. *)

(** The [Model] protocol: [query], the counters and the template
    variables.  [M] is the state of the model object. *)
Class Model (M : Type) := {
  model_query : M → list dict → (pyerr + dict) * M;
  model_n_calls : M → Z;
  model_cost : M → float;
  model_get_template_vars : M → dict;
}.

(** The [Environment] protocol. *)
Class Environment (E : Type) := {
  env_execute : E → val → (pyerr + dict) * E;
  env_get_template_vars : E → dict;
}.

(** jinja2: what an undefined variable is in a template. *)
Inductive undefined_policy := Undefined | StrictUndefined.

(** jinja2: [Template(source, undefined=...)] and [render] on the
    keyword arguments as one dict. *)
Class TemplateEngine := {
  template : Type;
  Template : str → undefined_policy → pyerr + template;
  render : template → dict → pyerr + str;
}.

(** chardet and the codec registry: [chardet.detect(b)['encoding']],
    [b.decode(encoding, errors="replace")], [sys.getfilesystemencoding()]. *)
Class Codecs := {
  chardet_detect : list byte → option string;
  decode_replace : list byte → string → pyerr + str;
  getfilesystemencoding : string;
}.

(** ** The agent *)

Record AgentConfig := {
  system_template : str;
  instance_template : str;
  timeout_template : str;
  format_error_template : str;
  action_observation_template : str;
  step_limit : Z;
  cost_limit : float;
}.

(** [dataclasses.asdict(config)] *)
Definition asdict (c : AgentConfig) : dict :=
  list_to_map
    [("system_template", VStr (system_template c));
     ("instance_template", VStr (instance_template c));
     ("timeout_template", VStr (timeout_template c));
     ("format_error_template", VStr (format_error_template c));
     ("action_observation_template", VStr (action_observation_template c));
     ("step_limit", VInt (step_limit c));
     ("cost_limit", VFloat (cost_limit c))].

Record DefaultAgent (M E : Type) := {
  config : AgentConfig;
  messages : list dict;
  model : M;
  env : E;
  extra_template_vars : dict;
}.
Arguments config {M E} _.
Arguments messages {M E} _.
Arguments model {M E} _.
Arguments env {M E} _.
Arguments extra_template_vars {M E} _.

(** The message a call of [add_message] with the role [user] and no
    keyword appends. *)
Definition user_message (text : str) : dict :=
  <["content" := VStr text]> {["role" := VStr (lit "user")]}.

(** The fenced block: [r"```bash\s*\n(.*?)\n```"] with [re.DOTALL]. *)
Definition fence : str := [96; 96; 96]%N.
Definition action_regex : Re.regex :=
  Re.Cat (Re.Lit (fence ++ lit "bash"))
    (Re.Cat (Re.Star true Py.isspace)
       (Re.Cat (Re.Lit [10%N])
          (Re.Cat (Re.Group (Re.Star false Re.any))
             (Re.Lit (10%N :: fence))))).

Definition sentinels : list str :=
  [lit "MINI_SWE_AGENT_FINAL_OUTPUT"; lit "COMPLETE_TASK_AND_SUBMIT_FINAL_OUTPUT"].

Section Agent.
Context {M E : Type} `{!Model M, !Environment E, !TemplateEngine, !Codecs}.

Abbreviation agent := (DefaultAgent M E).

Definition set_messages (a : agent) (ms : list dict) : agent :=
  {| config := config a; messages := ms; model := model a; env := env a;
     extra_template_vars := extra_template_vars a |}.

Definition set_model (a : agent) (m : M) : agent :=
  {| config := config a; messages := messages a; model := m; env := env a;
     extra_template_vars := extra_template_vars a |}.

Definition set_env (a : agent) (e : E) : agent :=
  {| config := config a; messages := messages a; model := model a; env := e;
     extra_template_vars := extra_template_vars a |}.

Definition set_extra_template_vars (a : agent) (d : dict) : agent :=
  {| config := config a; messages := messages a; model := model a; env := env a;
     extra_template_vars := d |}.

(** The variables of the second call argument of [render_template]. *)
Definition template_vars (a : agent) : dict :=
  dict_or (dict_or (asdict (config a)) (env_get_template_vars (env a)))
    (model_get_template_vars (model a)).

(** [render_template(self, template, **kwargs)] *)
Definition render_template (a : agent) (tpl : str) (kwargs : dict) : result str :=
  match Template tpl StrictUndefined with
  | inl e => Raise (PyErr e)
  | inr t =>
      match spread [kwargs; template_vars a; extra_template_vars a] with
      | None => Raise (PyErr TypeError)
      | Some context => lift (render t context)
      end
  end.

(** [add_message(self, role, content, **kwargs)] *)
Definition add_message (a : agent) (role : str) (content : val) (kwargs : dict)
    : agent :=
  set_messages a
    (messages a ++ [kwargs ∪ <["content" := content]> {["role" := VStr role]}]).

(** The limit test of [query]. *)
Definition limits_exceeded (a : agent) : bool :=
  (0 <? step_limit (config a)) && (step_limit (config a) <=? model_n_calls (model a))
  || PrimFloat.ltb 0 (cost_limit (config a))
     && PrimFloat.leb (cost_limit (config a)) (model_cost (model a)).

(** [query(self)].  The call of [add_message] unpacks the response
    into keyword arguments: the key [content] goes to the parameter,
    a key [self] or [role] is refused and a key [content] is needed. *)
Definition query (a : agent) : result dict * agent :=
  if limits_exceeded a then (Raise LimitsExceeded, a)
  else
    match model_query (model a) (messages a) with
    | (inl e, m) => (Raise (PyErr e), set_model a m)
    | (inr response, m) =>
        match response !! "self", response !! "role", response !! "content" with
        | None, None, Some content =>
            (Ok response,
             add_message (set_model a m) (lit "assistant") content
               (delete "content" response))
        | _, _, _ => (Raise (PyErr TypeError), set_model a m)
        end
    end.

(** [parse_action(self, response)] *)
Definition parse_action (a : agent) (response : dict) : result dict :=
  match response !! "content" with
  | None => Raise (PyErr KeyError)
  | Some (VStr content) =>
      let actions := Re.findall action_regex content in
      match actions with
      | [block] => Ok (response ∪ {["action" := VStr (Py.strip block)]})
      | _ =>
          rbind
            (render_template a (format_error_template (config a))
               {["actions" := VList (VStr <$> actions)]})
            (λ msg, Raise (FormatError msg))
      end
  | Some _ => Raise (PyErr TypeError)
  end.

(** [has_finished(self, output)] *)
Definition has_finished (output : dict) : result unit :=
  match default (VStr []) (output !! "output") with
  | VStr text =>
      match Py.splitlines (Py.lstrip text) with
      | first :: rest =>
          if bool_decide (Py.strip first ∈ sentinels)
          then Raise (Submitted (Py.join rest))
          else Ok tt
      | [] => Ok tt
      end
  | VBytes _ => Ok tt
  | _ => Raise (PyErr AttributeError)
  end.

(** [detected['encoding'] or 'utf-8'] *)
Definition or_utf8 (detected : option string) : string :=
  match detected with
  | Some EmptyString | None => "utf-8"
  | Some encoding => encoding
  end.

(** [chardet.detect(b)] then [b.decode(encoding, errors="replace")]. *)
Definition detect_and_decode (b : list byte) : pyerr + str :=
  decode_replace b (or_utf8 (chardet_detect b)).

(** The [try] body of [execute_action]. *)
Definition run_command (a : agent) (action : dict) : (pyerr + dict) * agent :=
  match action !! "action" with
  | None => (inl KeyError, a)
  | Some command =>
      match env_execute (env a) command with
      | (inl e, en) => (inl e, set_env a en)
      | (inr output, en) =>
          match output !! "output" with
          | None => (inl KeyError, set_env a en)
          | Some (VBytes b) =>
              match detect_and_decode b with
              | inl e => (inl e, set_env a en)
              | inr text => (inr (<["output" := VStr text]> output), set_env a en)
              end
          | Some _ => (inr output, set_env a en)
          end
      end
  end.

(** The text recovered in the handler of [subprocess.TimeoutExpired]. *)
Definition partial_output (c : captured) : pyerr + str :=
  match c with
  | NoOutput => inr []
  | BytesOutput [] => inr []
  | BytesOutput b =>
      match detect_and_decode b with
      | inl UnicodeDecodeError => decode_replace b getfilesystemencoding
      | r => r
      end
  | TextOutput s => inr s
  end.

Definition timeout_error (a : agent) (action : dict) (output : str) : result dict :=
  rbind
    (render_template a (timeout_template (config a))
       (<["action" := VDict action]> {["output" := VStr output]}))
    (λ msg, Raise (ExecutionTimeoutError msg)).

(** [execute_action(self, action)] *)
Definition execute_action (a : agent) (action : dict) : result dict * agent :=
  match run_command a action with
  | (inl (TimeoutExpired c), a') =>
      (rbind (lift (partial_output c)) (timeout_error a' action), a')
  | (inl TimeoutError, a') => (timeout_error a' action [], a')
  | (inl e, a') => (Raise (PyErr e), a')
  | (inr output, a') => (rbind (has_finished output) (λ _, Ok output), a')
  end.

(** [get_observation(self, response)] *)
Definition get_observation (a : agent) (response : dict) : result dict * agent :=
  match parse_action a response with
  | Raise e => (Raise e, a)
  | Ok action =>
      match execute_action a action with
      | (Raise e, a') => (Raise e, a')
      | (Ok output, a') =>
          match render_template a' (action_observation_template (config a'))
                  {["output" := VDict output]} with
          | Raise e => (Raise e, a')
          | Ok observation =>
              (Ok output, add_message a' (lit "user") (VStr observation) ∅)
          end
      end
  end.

(** [step(self)] *)
Definition step (a : agent) : result dict * agent :=
  match query a with
  | (Raise e, a') => (Raise e, a')
  | (Ok response, a') => get_observation a' response
  end.

(** How a call of [run] ends: it returns the pair, an exception leaves
    it, or the loop is still turning when the fuel is used up. *)
Inductive run_outcome :=
| Returned (status : string) (message : str)
| Escaped (e : exn)
| Running.

(** The [while True] loop of [run], for at most [fuel] turns. *)
Fixpoint run_loop (fuel : nat) (a : agent) : run_outcome * agent :=
  match fuel with
  | O => (Running, a)
  | S n =>
      match step a with
      | (Ok _, a') => run_loop n a'
      | (Raise e, a') =>
          if is_nonterminating e then
            run_loop n (add_message a' (lit "user") (VStr (exn_str e)) ∅)
          else if is_terminating e then
            (Returned (exn_name e) (exn_str e),
             add_message a' (lit "user") (VStr (exn_str e)) ∅)
          else (Escaped e, a')
      end
  end.

(** [run(self, task, **kwargs)] *)
Definition run (fuel : nat) (a : agent) (task : str) (kwargs : dict)
    : run_outcome * agent :=
  let a0 :=
    set_messages
      (set_extra_template_vars a
         (dict_or (extra_template_vars a) (kwargs ∪ {["task" := VStr task]})))
      [] in
  match render_template a0 (system_template (config a0)) ∅ with
  | Raise e => (Escaped e, a0)
  | Ok sys =>
      let a1 := add_message a0 (lit "system") (VStr sys) ∅ in
      match render_template a1 (instance_template (config a1)) ∅ with
      | Raise e => (Escaped e, a1)
      | Ok inst => run_loop fuel (add_message a1 (lit "user") (VStr inst) ∅)
      end
  end.

End Agent.

(** ** A template engine for the templates of [AgentConfig]

    The part of jinja2 the configured templates are written in: text
    and [{{ name }}] or [{{ name['key'] }}], printing a [str] or an
    [int].  Any other template, and any other value to print, is
    answered with [not_modelled]. *)

Module MiniJinja.

Inductive chunk :=
| Data (s : str)
| Output (x : string) (key : option string).

Definition not_modelled : pyerr := OtherError "not modelled".

Definition is_ident_start (c : N) : bool :=
  ((65 <=? c) && (c <=? 90) || (97 <=? c) && (c <=? 122) || (c =? 95))%N.

Definition is_ident_char (c : N) : bool :=
  (is_ident_start c || (48 <=? c) && (c <=? 57))%N.

(** The characters of a string constant without escapes. *)
Definition is_key_char (c : N) : bool :=
  ((32 <=? c) && (c <=? 126) && negb (c =? 92))%N.

Definition to_string (s : str) : string :=
  string_of_list_ascii (ascii_of_N <$> s).

(** Names jinja2 does not look up in the context: keywords,
    constants, the default globals and the names of its scopes. *)
Definition reserved : list string :=
  ["and"; "or"; "not"; "in"; "is"; "if"; "else";
   "true"; "false"; "none"; "True"; "False"; "None";
   "range"; "dict"; "lipsum"; "cycler"; "joiner"; "namespace";
   "self"; "loop"; "super"; "caller"; "varargs"; "kwargs"].

Fixpoint drop_spaces (s : str) : str :=
  match s with
  | c :: s' => if (c =? 32)%N then drop_spaces s' else s
  | [] => []
  end.

Fixpoint span (p : N → bool) (s : str) : str * str :=
  match s with
  | c :: s' => if p c then let (a, b) := span p s' in (c :: a, b) else ([], s)
  | [] => ([], [])
  end.

(** After [name]: nothing, or one subscript with a string constant. *)
Definition parse_subscript (x : string) (s : str) : option chunk :=
  match drop_spaces s with
  | [] => Some (Output x None)
  | b :: s1 =>
      if (b =? 91)%N then
        match drop_spaces s1 with
        | q :: s2 =>
            if ((q =? 39) || (q =? 34))%N then
              let (key, s3) := span (λ c, is_key_char c && negb (c =? q)%N) s2 in
              match s3 with
              | q' :: s4 =>
                  if (q' =? q)%N then
                    match drop_spaces s4 with
                    | e :: s5 =>
                        if (e =? 93)%N then
                          match drop_spaces s5 with
                          | [] => Some (Output x (Some (to_string key)))
                          | _ => None
                          end
                        else None
                    | [] => None
                    end
                  else None
              | [] => None
              end
            else None
        | [] => None
        end
      else None
  end.

(** The expression between [{{] and [}}]. *)
Definition parse_expr (e : str) : option chunk :=
  let (name, rest) := span is_ident_char (drop_spaces e) in
  match name with
  | c :: _ =>
      if is_ident_start c && negb (bool_decide (to_string name ∈ reserved))
      then parse_subscript (to_string name) rest
      else None
  | [] => None
  end.

Inductive mode := InData (acc : str) | InExpr (acc : str).

Fixpoint lex (s : str) (m : mode) : option (list chunk) :=
  match s with
  | [] =>
      match m with
      | InData acc => Some [Data acc]
      | InExpr _ => None
      end
  | c :: s' =>
      match m with
      | InData acc =>
          if (c =? 123)%N then
            match s' with
            | c2 :: s'' =>
                if (c2 =? 123)%N then cons (Data acc) <$> lex s'' (InExpr [])
                else if ((c2 =? 37) || (c2 =? 35))%N then None
                else lex s' (InData (acc ++ [c]))
            | [] => Some [Data (acc ++ [c])]
            end
          else lex s' (InData (acc ++ [c]))
      | InExpr acc =>
          if (c =? 125)%N then
            match s' with
            | c2 :: s'' =>
                if (c2 =? 125)%N then
                  match parse_expr acc with
                  | Some e => cons e <$> lex s'' (InData [])
                  | None => None
                  end
                else lex s' (InExpr (acc ++ [c]))
            | [] => None
            end
          else lex s' (InExpr (acc ++ [c]))
      end
  end.

(** jinja2 drops one newline at the end of the source. *)
Definition drop_trailing_newline (s : str) : str :=
  match rev s with
  | c :: r => if (c =? 10)%N then rev r else s
  | [] => s
  end.

Definition compile (src : str) : option (list chunk) :=
  if existsb (N.eqb 13) src then None
  else lex (drop_trailing_newline src) (InData []).

(** [str(v)] for the values the engine prints. *)
Definition to_text (v : val) : pyerr + str :=
  match v with
  | VStr s => inr s
  | VInt z => inr (lit (DecimalString.NilZero.string_of_int (Z.to_int z)))
  | _ => inl not_modelled
  end.

Definition chunk_text (p : undefined_policy) (ctx : dict) (c : chunk) : pyerr + str :=
  match c with
  | Data s => inr s
  | Output x None =>
      match ctx !! x with
      | Some v => to_text v
      | None => match p with StrictUndefined => inl UndefinedError | Undefined => inr [] end
      end
  | Output x (Some k) =>
      match ctx !! x with
      | Some (VDict d) =>
          match d !! k with
          | Some v => to_text v
          | None => inl not_modelled
          end
      | Some _ => inl not_modelled
      | None => inl UndefinedError
      end
  end.

Fixpoint render_chunks (p : undefined_policy) (ctx : dict) (cs : list chunk)
    : pyerr + str :=
  match cs with
  | [] => inr []
  | c :: cs' =>
      match chunk_text p ctx c with
      | inl e => inl e
      | inr t =>
          match render_chunks p ctx cs' with
          | inl e => inl e
          | inr r => inr (t ++ r)
          end
      end
  end.

(** [render(self, *args, **kwargs)] cannot take a keyword [self]. *)
Definition render_in (t : undefined_policy * list chunk) (ctx : dict) : pyerr + str :=
  match ctx !! "self" with
  | Some _ => inl TypeError
  | None => render_chunks t.1 ctx t.2
  end.

#[global] Instance engine : TemplateEngine := {|
  template := undefined_policy * list chunk;
  Template src p :=
    match compile src with
    | Some cs => inr (p, cs)
    | None => inl not_modelled
    end;
  render := render_in;
|}.

End MiniJinja.
(** ** The filter [random]

    jinja2's filter [random] draws one item of a sequence with
    [random.choice], that is with the generator of Python's module
    [random]: state of the process, and no argument of [render].  The
    engine below is [MiniJinja] under [StrictUndefined] with this
    filter; the state of the generator is passed along. *)

(** The generator of the module [random]: [_randbelow(n)], the index
    [random.choice] draws for a sequence of [n] items. *)
Class RandomSource (G : Type) := {
  randbelow : G → nat → nat * G;
}.

Module RandomJinja.
Import MiniJinja.

Inductive piece :=
| Plain (c : chunk)
| Random (x : string).

(** [name | random] *)
Definition parse_random (e : str) : option piece :=
  let (name, rest) := span is_ident_char (drop_spaces e) in
  match name with
  | c :: _ =>
      if is_ident_start c && negb (bool_decide (to_string name ∈ reserved)) then
        match drop_spaces rest with
        | bar :: rest1 =>
            if (bar =? 124)%N then
              let (filter, rest2) := span is_ident_char (drop_spaces rest1) in
              if bool_decide (filter = lit "random") then
                match drop_spaces rest2 with
                | [] => Some (Random (to_string name))
                | _ => None
                end
              else None
            else None
        | [] => None
        end
      else None
  | [] => None
  end.

(** The expression between [{{] and [}}]. *)
Definition parse_piece (e : str) : option piece :=
  match parse_expr e with
  | Some c => Some (Plain c)
  | None => parse_random e
  end.

Fixpoint lex (s : str) (m : mode) : option (list piece) :=
  match s with
  | [] =>
      match m with
      | InData acc => Some [Plain (Data acc)]
      | InExpr _ => None
      end
  | c :: s' =>
      match m with
      | InData acc =>
          if (c =? 123)%N then
            match s' with
            | c2 :: s'' =>
                if (c2 =? 123)%N then cons (Plain (Data acc)) <$> lex s'' (InExpr [])
                else if ((c2 =? 37) || (c2 =? 35))%N then None
                else lex s' (InData (acc ++ [c]))
            | [] => Some [Plain (Data (acc ++ [c]))]
            end
          else lex s' (InData (acc ++ [c]))
      | InExpr acc =>
          if (c =? 125)%N then
            match s' with
            | c2 :: s'' =>
                if (c2 =? 125)%N then
                  match parse_piece acc with
                  | Some e => cons e <$> lex s'' (InData [])
                  | None => None
                  end
                else lex s' (InExpr (acc ++ [c]))
            | [] => None
            end
          else lex s' (InExpr (acc ++ [c]))
      end
  end.

Definition compile (src : str) : option (list piece) :=
  if existsb (N.eqb 13) src then None
  else lex (drop_trailing_newline src) (InData []).

(** [do_random]: [random.choice(seq)], and an undefined value when the
    sequence is empty, which [StrictUndefined] refuses to print; an
    empty sequence draws nothing from the generator. *)
Definition choose {G} `{!RandomSource G} (items : list val) (g : G)
    : (pyerr + str) * G :=
  match items with
  | [] => (inl UndefinedError, g)
  | _ =>
      let (i, g') := randbelow g (length items) in
      match items !! i with
      | Some v => (to_text v, g')
      | None => (inl not_modelled, g')
      end
  end.

Definition piece_text {G} `{!RandomSource G} (ctx : dict) (c : piece) (g : G)
    : (pyerr + str) * G :=
  match c with
  | Plain c => (chunk_text StrictUndefined ctx c, g)
  | Random x =>
      match ctx !! x with
      | Some (VList l) => choose l g
      | Some (VStr s) => choose ((λ c, VStr [c]) <$> s) g
      | Some _ => (inl not_modelled, g)
      | None => (inl UndefinedError, g)
      end
  end.

Fixpoint render_pieces {G} `{!RandomSource G} (ctx : dict) (ps : list piece) (g : G)
    : (pyerr + str) * G :=
  match ps with
  | [] => (inr [], g)
  | c :: ps' =>
      match piece_text ctx c g with
      | (inl e, g') => (inl e, g')
      | (inr t, g') =>
          match render_pieces ctx ps' g' with
          | (inl e, g'') => (inl e, g'')
          | (inr r, g'') => (inr (t ++ r), g'')
          end
      end
  end.

(** [render(self, *args, **kwargs)] cannot take a keyword [self]. *)
Definition render_in {G} `{!RandomSource G} (ps : list piece) (ctx : dict) (g : G)
    : (pyerr + str) * G :=
  match ctx !! "self" with
  | Some _ => (inl TypeError, g)
  | None => render_pieces ctx ps g
  end.

End RandomJinja.

Section RandomRendering.
Context {M E : Type} `{!Model M, !Environment E} {G : Type} `{!RandomSource G}.

(** [render_template(self, template, **kwargs)] with the engine
    [RandomJinja]: the call takes the state of the random generator
    and returns it with the result. *)
Definition render_template_rng (a : DefaultAgent M E) (tpl : str) (kwargs : dict)
    (g : G) : result str * G :=
  match RandomJinja.compile tpl with
  | None => (Raise (PyErr MiniJinja.not_modelled), g)
  | Some ps =>
      match spread [kwargs; template_vars a; extra_template_vars a] with
      | None => (Raise (PyErr TypeError), g)
      | Some context =>
          let (r, g') := RandomJinja.render_in ps context g in (lift r, g')
      end
  end.

End RandomRendering.

(** ** Capabilities that follow a script, for the examples *)

Module Scripted.

(** A model that answers with its replies in turn and counts. *)
Record model_state := {
  replies : list (pyerr + dict);
  n_calls : Z;
  cost : float;
  model_vars : dict;
}.

#[global] Instance scripted_model : Model model_state := {|
  model_query m _ :=
    match replies m with
    | r :: rs =>
        (r, {| replies := rs; n_calls := n_calls m + 1; cost := cost m;
               model_vars := model_vars m |})
    | [] => (inl (OtherError "StopIteration"), m)
    end;
  model_n_calls := n_calls;
  model_cost := cost;
  model_get_template_vars := model_vars;
|}.

(** An environment that answers with its outcomes in turn and keeps
    the commands it was given. *)
Record env_state := {
  outcomes : list (pyerr + dict);
  received : list val;
  env_vars : dict;
}.

#[global] Instance scripted_env : Environment env_state := {|
  env_execute e command :=
    match outcomes e with
    | r :: rs =>
        (r, {| outcomes := rs; received := received e ++ [command];
               env_vars := env_vars e |})
    | [] => (inl (OtherError "StopIteration"), e)
    end;
  env_get_template_vars := env_vars;
|}.

Definition is_plain (b : byte) : bool := (Byte.to_N b <? 128)%N.

(** ASCII that starts no escape sequence (no ESC, no tilde). *)
Definition is_pure (b : byte) : bool :=
  is_plain b && negb (Byte.to_N b =? 27)%N && negb (Byte.to_N b =? 126)%N.

(** A byte that starts no UTF-8 sequence, 80..C1 and F5..FF: where
    no byte C2..F4 occurs, the decoder replaces each of them by U+FFFD. *)
Definition is_stray (b : byte) : bool :=
  ((128 <=? Byte.to_N b) && (Byte.to_N b <=? 193) || (245 <=? Byte.to_N b))%N.

(** What chardet and the codec registry answer on the inputs of the
    examples: chardet names pure ASCII input [ascii], finds nothing
    in the empty input and reads the byte order mark FE FF 00 00 as
    [X-ISO-10646-UCS-4-3412]; the registry knows [ascii] and [utf-8]
    (on ASCII bytes and bytes that start no sequence) and no codec of
    any other name.  On other inputs the instance has chardet find
    nothing. *)
#[global] Instance codecs : Codecs := {|
  chardet_detect b :=
    match b with
    | [] => None
    | xfe :: xff :: x00 :: x00 :: _ => Some "X-ISO-10646-UCS-4-3412"
    | _ => if forallb is_pure b then Some "ascii" else None
    end;
  decode_replace b encoding :=
    if bool_decide (encoding = "ascii") then
      inr ((λ c, if is_plain c then Byte.to_N c else 65533%N) <$> b)
    else if bool_decide (encoding = "utf-8") then
      if forallb (λ c, is_plain c || is_stray c) b then
        inr ((λ c, if is_plain c then Byte.to_N c else 65533%N) <$> b)
      else inl (OtherError "not modelled")
    else inl LookupError;
  getfilesystemencoding := "utf-8";
|}.

Abbreviation agent := (DefaultAgent model_state env_state).

(** [AgentConfig] with templates of the engine's language. *)
Definition example_config : AgentConfig := {|
  system_template := lit "You are a helpful assistant.";
  instance_template := lit "Your task: {{task}}.";
  timeout_template :=
    lit "<command>{{action['action']}}</command> timed out: <output>{{output}}</output>";
  format_error_template := lit "Please provide exactly one action.";
  action_observation_template := lit "Observation: {{output['output']}}";
  step_limit := 0;
  cost_limit := 3%float;
|}.

Definition fresh_model (rs : list (pyerr + dict)) : model_state :=
  {| replies := rs; n_calls := 0; cost := 0%float; model_vars := ∅ |}.

Definition fresh_env (rs : list (pyerr + dict)) : env_state :=
  {| outcomes := rs; received := []; env_vars := ∅ |}.

Definition make_agent (c : AgentConfig) (m : model_state) (e : env_state) : agent :=
  {| config := c; messages := []; model := m; env := e;
     extra_template_vars := ∅ |}.

(** A response whose content holds one block with [command]. *)
Definition fenced (command : string) : str :=
  lit "Let me try." ++ [10%N] ++ fence ++ lit "bash" ++ [10%N]
    ++ lit command ++ [10%N] ++ fence.

Definition reply (content : str) : dict := {["content" := VStr content]}.

Definition text_output (s : str) : dict :=
  <["output" := VStr s]> {["returncode" := VInt 0]}.

(** A generator that follows a script: the numbers it draws, each
    reduced to the range asked for. *)
#[global] Instance scripted_random : RandomSource (list nat) := {|
  randbelow g n :=
    match g with
    | d :: g' => ((d mod n)%nat, g')
    | [] => (0%nat, [])
    end;
|}.

End Scripted.


(** ** The completion marker, in the words of the specification *)

Module Marker.

(** A line of nothing but whitespace. *)
Definition is_blank (l : str) : bool := forallb Py.isspace l.

Fixpoint drop_blank (ls : list str) : list str :=
  match ls with
  | l :: ls' => if is_blank l then drop_blank ls' else ls
  | [] => []
  end.

(** The first non-blank line of the output, with its terminator. *)
Definition first_nonblank_line (text : str) : option str :=
  head (drop_blank (Py.splitlines text)).

(** All lines after the first non-blank line, terminators kept. *)
Definition remaining_output (text : str) : str :=
  Py.join (tail (drop_blank (Py.splitlines text))).

End Marker.

(** ** Agents and inputs of the examples *)

Module Examples.
Import Scripted.

(** An agent whose model and environment have nothing to say. *)
Definition idle : agent := make_agent example_config (fresh_model []) (fresh_env []).

(** A response with one block [ls]. *)
Definition one_block : dict := reply (fenced "ls").

(** A response with one block [ls] and a field [action] of its own. *)
Definition with_action_field : dict :=
  <["action" := VStr (lit "rm -rf /")]> one_block.


(** An agent that has used its one step. *)
Definition spent : agent :=
  make_agent
    {| system_template := system_template example_config;
       instance_template := instance_template example_config;
       timeout_template := timeout_template example_config;
       format_error_template := format_error_template example_config;
       action_observation_template := action_observation_template example_config;
       step_limit := 1;
       cost_limit := 0%float |}
    {| replies := [inr one_block]; n_calls := 1; cost := 0%float; model_vars := ∅ |}
    (fresh_env []).

(** The config with a misspelt variable in the observation template. *)
Definition typo_config : AgentConfig :=
  {| system_template := system_template example_config;
     instance_template := instance_template example_config;
     timeout_template := timeout_template example_config;
     format_error_template := format_error_template example_config;
     action_observation_template := lit "Observation: {{outpt}}";
     step_limit := 0;
     cost_limit := 3%float |}.

(** The action [parse_action] makes of [one_block]. *)
Definition ls_action : dict := one_block ∪ {["action" := VStr (lit "ls")]}.

(** An agent whose model asks for [ls] and whose environment answers
    with [outcome]. *)
Definition asking (c : AgentConfig) (outcome : pyerr + dict) : agent :=
  make_agent c (fresh_model [inr one_block]) (fresh_env [outcome]).

(** Four bytes that start with the byte order mark FE FF 00 00. *)
Definition blob : list byte := [xfe; xff; x00; x00].

Definition blob_output : dict := <["output" := VBytes blob]> {["returncode" := VInt 0]}.

(** Output that is the marker and an answer, and the marker alone. *)
Definition answer : str :=
  [10%N] ++ lit "  COMPLETE_TASK_AND_SUBMIT_FINAL_OUTPUT " ++ [13; 10]%N
    ++ lit "Answer: 42" ++ [10%N].
Definition marker_only : str := lit "MINI_SWE_AGENT_FINAL_OUTPUT".

(** An agent without limits whose model has been called often. *)
Definition unlimited : agent :=
  make_agent
    {| system_template := system_template example_config;
       instance_template := instance_template example_config;
       timeout_template := timeout_template example_config;
       format_error_template := format_error_template example_config;
       action_observation_template := action_observation_template example_config;
       step_limit := 0;
       cost_limit := (-1)%float |}
    {| replies := [inr one_block]; n_calls := 1000; cost := 1000000%float;
       model_vars := ∅ |}
    (fresh_env []).

(** An agent whose capabilities bring variables: the environment a
    shell and a step limit, the model a step limit too. *)
Definition overriding : agent :=
  make_agent example_config
    {| replies := []; n_calls := 0; cost := 0%float;
       model_vars := {["step_limit" := VInt 9]} |}
    {| outcomes := []; received := [];
       env_vars := <["shell" := VStr (lit "bash")]> {["step_limit" := VInt 5]} |}.

(** [idle] later in its life: a message more, a model that was called. *)
Definition idle_later : agent :=
  {| config := example_config;
     messages := [user_message (lit "hi")];
     model := {| replies := []; n_calls := 7; cost := 1%float; model_vars := ∅ |};
     env := fresh_env [];
     extra_template_vars := ∅ |}.

(** The state of the scripted environment after the command [c]. *)
Definition after_command (c : val) : env_state :=
  {| outcomes := []; received := [c]; env_vars := ∅ |}.

(** The bytes of [partial]. *)
Definition partial_bytes : list byte := [x70; x61; x72; x74; x69; x61; x6c].

(** An agent with two steps to go whose model never sends a block. *)
Definition limited : agent :=
  make_agent
    {| system_template := system_template example_config;
       instance_template := instance_template example_config;
       timeout_template := timeout_template example_config;
       format_error_template := format_error_template example_config;
       action_observation_template := action_observation_template example_config;
       step_limit := 2;
       cost_limit := 0%float |}
    (fresh_model [inr (reply (lit "no block")); inr (reply (lit "still none"));
                  inr (reply (lit "never asked"))])
    (fresh_env []).

(** Output in bytes, and the output [execute_action] makes of it. *)
Definition bytes_output : dict :=
  <["output" := VBytes partial_bytes]> {["returncode" := VInt 0]}.
Definition decoded_output : dict :=
  <["output" := VStr (lit "partial")]> {["returncode" := VInt 0]}.

(** The bytes of [partial] and one byte FF, as a command cut short
    may leave them. *)
Definition cut_short : list byte := partial_bytes ++ [xff].

(** An agent as [asking] whose run was given a variable [output]. *)
Definition with_output (outcome : pyerr + dict) : agent :=
  set_extra_template_vars (asking example_config outcome)
    {["output" := VStr (lit "x")]}.

(** A template that draws one of the items it is given. *)
Definition random_template : str := lit "{{ items|random }}".
Definition choices : dict := {["items" := VList [VStr (lit "a"); VStr (lit "b")]]}.

End Examples.

(** * Properties *)

(** ** Text *)

Lemma isspace_of_islinebreak c : Py.islinebreak c = true → Py.isspace c = true.
Proof.
  unfold Py.islinebreak, Py.isspace.
  rewrite !orb_true_iff, !andb_true_iff, !N.leb_le, !N.eqb_eq. lia.
Qed.

Lemma isspace_cr c : (c =? 13)%N = true → Py.isspace c = true.
Proof. intros ->%N.eqb_eq. reflexivity. Qed.

Lemma splitlines_head c s : ∃ l rest, Py.splitlines (c :: s) = (c :: l) :: rest.
Proof.
  cbn [Py.splitlines]. destruct (c =? 13)%N.
  - destruct s as [|c2 s]; [by eexists _, _|].
    destruct (c2 =? 10)%N; eexists _, _; reflexivity.
  - destruct (Py.islinebreak c); [by eexists _, _|].
    destruct (Py.splitlines s); eexists _, _; reflexivity.
Qed.

Lemma strip_space_cons c l : Py.isspace c = true → Py.strip (c :: l) = Py.strip l.
Proof. intros Hc. unfold Py.strip. simpl. by rewrite Hc. Qed.

(** [lstrip] before [splitlines] finds the first non-blank line and
    leaves the lines after it as they are. *)
Lemma splitlines_lstrip text :
  match Marker.drop_blank (Py.splitlines text) with
  | [] => Py.splitlines (Py.lstrip text) = []
  | l :: rest =>
      ∃ l0, Py.splitlines (Py.lstrip text) = l0 :: rest ∧ Py.strip l0 = Py.strip l
  end.
Proof.
  remember (length text) as n eqn:Hn. revert text Hn.
  induction n as [n IH] using lt_wf_ind. intros [|c s] Hn; [done|].
  simpl in Hn. destruct (Py.isspace c) eqn:Hc.
  - (* a leading space: it goes, with the blank line it may end *)
    cbn [Py.lstrip]. rewrite Hc. cbn [Py.splitlines].
    destruct (c =? 13)%N eqn:Hcr.
    + destruct s as [|c2 s2].
      { cbn [Marker.drop_blank Marker.is_blank forallb]. by rewrite Hc. }
      destruct (c2 =? 10)%N eqn:Hlf.
      * cbn [Marker.drop_blank Marker.is_blank forallb]. rewrite Hc.
        assert (Py.isspace c2 = true) as Hc2
          by (apply N.eqb_eq in Hlf; by subst).
        rewrite Hc2. cbn [andb Py.lstrip]. rewrite Hc2.
        apply (IH (length s2)); [simpl in Hn; lia | done].
      * cbn [Marker.drop_blank Marker.is_blank forallb]. rewrite Hc. cbn [andb].
        apply (IH (length (c2 :: s2))); [lia | done].
    + destruct (Py.islinebreak c) eqn:Hlb.
      * cbn [Marker.drop_blank Marker.is_blank forallb]. rewrite Hc. cbn [andb].
        apply (IH (length s)); [lia | done].
      * specialize (IH (length s) ltac:(lia) s eq_refl).
        destruct (Py.splitlines s) as [|l ls] eqn:Hs.
        -- cbn [Marker.drop_blank Marker.is_blank forallb]. rewrite Hc. cbn [andb].
           exact IH.
        -- cbn [Marker.drop_blank] in IH |- *.
           replace (Marker.is_blank (c :: l)) with (Marker.is_blank l)
             by (cbn [Marker.is_blank forallb]; by rewrite Hc).
           destruct (Marker.is_blank l); [exact IH|].
           destruct IH as (l0 & Hl0 & Hstrip). exists l0. split; [done|].
           by rewrite strip_space_cons.
  - (* no leading space: the first line is not blank *)
    cbn [Py.lstrip]. rewrite Hc.
    destruct (splitlines_head c s) as (l & rest & Heq). rewrite Heq.
    cbn [Marker.drop_blank Marker.is_blank forallb]. rewrite Hc. cbn [andb].
    by exists (c :: l).
Qed.

(** ** The fenced block *)

Lemma strip_prefix_Some p s s' : Re.strip_prefix p s = Some s' → s = p ++ s'.
Proof.
  revert s. induction p as [|a p IH]; intros [|b s]; simpl; try congruence.
  destruct (a =? b)%N eqn:Hab; [|done].
  apply N.eqb_eq in Hab as ->. intros ->%IH. done.
Qed.

Lemma star_greedy_Some cls s k m :
  Re.star_greedy cls s k = Some m →
  ∃ ws s', s = ws ++ s' ∧ forallb cls ws = true ∧ k s' = Some m.
Proof.
  induction s as [|c s IH]; simpl.
  - intros Hk. by exists [], [].
  - destruct (cls c) eqn:Hc; [|intros Hk; by exists [], (c :: s)].
    destruct (Re.star_greedy cls s k) eqn:Hs.
    + intros [= ->]. destruct (IH eq_refl) as (ws & s' & -> & Hws & Hk).
      exists (c :: ws), s'. simpl. by rewrite Hc, Hws.
    + intros Hk. by exists [], (c :: s).
Qed.

Lemma star_lazy_Some cls s k m :
  Re.star_lazy cls s k = Some m →
  ∃ ws s', s = ws ++ s' ∧ forallb cls ws = true ∧ k s' = Some m.
Proof.
  induction s as [|c s IH]; simpl.
  - destruct (k []) eqn:Hk; [|done]. intros [= ->]. by exists [], [].
  - destruct (k (c :: s)) eqn:Hk.
    + intros [= ->]. by exists [], (c :: s).
    + destruct (cls c) eqn:Hc; [|done].
      intros (ws & s' & -> & Hws & Hk')%IH.
      exists (c :: ws), s'. simpl. by rewrite Hc, Hws.
Qed.

(** A match of the pattern of [parse_action] at the head of [s]: the
    opening fence with its tag, whitespace, a newline, the captured
    block, a newline and the closing fence. *)
Lemma match_here_action s rest caps :
  Re.match_here action_regex s = Some (rest, caps) →
  ∃ ws block,
    s = (fence ++ lit "bash") ++ ws ++ [10%N] ++ block ++ (10%N :: fence) ++ rest
    ∧ forallb Py.isspace ws = true
    ∧ caps = [block].
Proof.
  unfold Re.match_here, action_regex. cbn [Re.rmatch].
  destruct (Re.strip_prefix _ s) as [s1|] eqn:H1; [|done].
  apply strip_prefix_Some in H1 as ->.
  intros (ws & s2 & -> & Hws & H2)%star_greedy_Some.
  destruct (Re.strip_prefix [10%N] s2) as [s3|] eqn:H3; [|done].
  apply strip_prefix_Some in H3 as ->.
  apply star_lazy_Some in H2 as (block & s4 & -> & _ & H4).
  destruct (Re.strip_prefix (10%N :: fence) s4) as [s5|] eqn:H5; [|done].
  apply strip_prefix_Some in H5 as ->.
  injection H4 as <- <-. exists ws, block. split_and!; [done..|].
  f_equal. rewrite length_app. cbn [length].
  replace (_ + _ - _)%nat with (length block) by lia.
  by rewrite take_app_length.
Qed.

(** Every block [findall] returns stands between two fences in the
    content. *)
Lemma findall_action_sound content block :
  block ∈ Re.findall action_regex content →
  ∃ before ws after,
    content = before ++ (fence ++ lit "bash") ++ ws ++ [10%N] ++ block
                ++ (10%N :: fence) ++ after
    ∧ forallb Py.isspace ws = true.
Proof.
  unfold Re.findall. generalize 0%nat as skip.
  induction content as [|c s IH]; intros skip; [by intros ?%elem_of_nil|].
  assert (∀ n, block ∈ Re.findall_from action_regex s n →
    ∃ before ws after,
      c :: s = before ++ (fence ++ lit "bash") ++ ws ++ [10%N] ++ block
                 ++ (10%N :: fence) ++ after
      ∧ forallb Py.isspace ws = true) as Hrest.
  { intros n (before & ws & after & -> & Hws)%IH.
    by exists (c :: before), ws, after. }
  cbn [Re.findall_from]. destruct skip as [|n]; [|by apply Hrest].
  destruct (Re.match_here action_regex (c :: s)) as [[rest caps]|] eqn:Hm;
    [|by apply Hrest].
  intros [->|Hin]%elem_of_cons; [|by eapply Hrest].
  apply match_here_action in Hm as (ws & b & Hs & Hws & ->).
  exists [], ws, rest. by rewrite Hs.
Qed.

(** ** Numbers *)

Lemma float_not_positive (x : float) :
  PrimFloat.leb x 0 = true → PrimFloat.ltb 0 x = false.
Proof.
  rewrite leb_spec, ltb_spec.
  replace (Prim2SF 0) with (S754_zero false) by reflexivity.
  destruct (Prim2SF x) as [[]|[]| |[] m e]; cbn; congruence.
Qed.

(** ** The agent *)

Section AgentProperties.
Context {M E : Type} `{!Model M, !Environment E, !TemplateEngine, !Codecs}.
Implicit Types (a : DefaultAgent M E) (response action output : dict).

Lemma render_template_raises a tpl kwargs e :
  render_template a tpl kwargs = Raise e → ∃ pe, e = PyErr pe.
Proof.
  unfold render_template. destruct (Template _ _); [intros [= <-]; eauto|].
  destruct (spread _); [|intros [= <-]; eauto].
  destruct (render _ _); simpl; [intros [= <-]; eauto|done].
Qed.


(** C10.  The action [parse_action] returns is the parsed command under
    [action] with the fields of the response spread over it: when the
    response has a field [action], the returned action carries the
    value of that field, not the block, and that value is the command
    [execute_action] gives to the environment. *)
Theorem parse_action_response_overrides a response action v :
  response !! "action" = Some v →
  parse_action a response = Ok action →
  action !! "action" = Some v
  ∧ ∃ r en, env_execute (env a) v = (r, en)
      ∧ (execute_action a action).2 = set_env a en.
Proof.
  intros Hv. unfold parse_action.
  destruct (response !! "content") as [[]|] eqn:Hc; try done.
  destruct (Re.findall _ _) as [|b [|b' l]];
    try (destruct (render_template _ _ _); done).
  intros [= <-].
  assert ((response ∪ {["action" := VStr (Py.strip b)]}) !! "action" = Some v)
    as Hact by (by apply lookup_union_Some_l).
  split; [done|].
  destruct (env_execute (env a) v) as [r en] eqn:Hrun. exists r, en.
  split; [done|]. unfold execute_action, run_command. rewrite Hact, Hrun.
  destruct r as [e|output].
  - by destruct e.
  - destruct (output !! "output") as [[]|]; try done.
    by destruct (detect_and_decode b0) as [[]|].
Qed.

(** C3.  [query] raises [LimitsExceeded] exactly when the step limit
    is positive and reached by the number of calls, or the cost limit
    is positive and reached by the cost; it then leaves the agent and
    the model as they were, no call made.  With both limits zero or
    negative it never raises [LimitsExceeded]. *)
Theorem query_limits a :
  let steps := step_limit (config a) in
  let budget := cost_limit (config a) in
  ((query a).1 = Raise LimitsExceeded ↔
     (0 < steps ∧ steps ≤ model_n_calls (model a))
     ∨ (PrimFloat.ltb 0 budget = true
        ∧ PrimFloat.leb budget (model_cost (model a)) = true))
  ∧ ((query a).1 = Raise LimitsExceeded → query a = (Raise LimitsExceeded, a))
  ∧ (steps ≤ 0 → PrimFloat.leb budget 0 = true →
     (query a).1 ≠ Raise LimitsExceeded).
Proof.
  intros steps budget.
  assert (limits_exceeded a = true ↔
     (0 < steps ∧ steps ≤ model_n_calls (model a))
     ∨ (PrimFloat.ltb 0 budget = true
        ∧ PrimFloat.leb budget (model_cost (model a)) = true)) as Hlim.
  { unfold limits_exceeded. fold steps budget.
    rewrite orb_true_iff, !andb_true_iff, Z.ltb_lt, Z.leb_le. done. }
  assert ((query a).1 = Raise LimitsExceeded ↔ limits_exceeded a = true) as Hq.
  { unfold query. destruct (limits_exceeded a); [done|].
    destruct (model_query _ _) as [[e|response] m]; [done|].
    by destruct (response !! "self"), (response !! "role"),
      (response !! "content"). }
  split_and!.
  - by rewrite Hq.
  - intros Hr%Hq. unfold query. by rewrite Hr.
  - intros Hs Hb. rewrite Hq, Hlim. intros [[? ?]|[Hpos _]]; [lia|].
    by rewrite (float_not_positive _ Hb) in Hpos.
Qed.

(** The keyword arguments of the [render] call. *)
Lemma spread_three (kwargs vars extras : dict) :
  spread [kwargs; vars; extras]
  = if bool_decide (kwargs ##ₘ vars ∧ kwargs ##ₘ extras ∧ vars ##ₘ extras)
    then Some (kwargs ∪ vars ∪ extras) else None.
Proof.
  cbn [spread]. rewrite bool_decide_eq_true_2 by apply map_disjoint_empty_r.
  rewrite (right_id_L ∅ (∪)).
  destruct (decide (vars ##ₘ extras)) as [Hve|Hve].
  - rewrite (bool_decide_eq_true_2 _ Hve).
    destruct (decide (kwargs ##ₘ vars ∪ extras)) as [Hk|Hk].
    + rewrite (bool_decide_eq_true_2 _ Hk).
      apply map_disjoint_union_r in Hk as [? ?].
      rewrite bool_decide_eq_true_2 by done. by rewrite (assoc_L (∪)).
    + rewrite (bool_decide_eq_false_2 _ Hk), bool_decide_eq_false_2; [done|].
      intros (? & ? & ?). apply Hk. by apply map_disjoint_union_r.
  - rewrite (bool_decide_eq_false_2 _ Hve), bool_decide_eq_false_2; [done|].
    by intros (? & ? & ?).
Qed.

(** C4, amended.  The context of a rendering holds the fields of the
    config, the environment's variables and the model's variables,
    a later one of these three overriding an earlier one, and next to
    them the run-scoped extras and the variables of the call.  When
    no name is shared between these last two and the first three
    taken together, nor between the extras and the variables of the
    call, every variable of every source is in the context with its
    value.  A shared name is no override: the call fails with a
    [TypeError] and nothing is rendered. *)
Theorem render_template_context a tpl kwargs t :
  Template tpl StrictUndefined = inr t →
  let fields := asdict (config a) in
  let of_env := env_get_template_vars (env a) in
  let of_model := model_get_template_vars (model a) in
  let extras := extra_template_vars a in
  let apart :=
    kwargs ##ₘ template_vars a ∧ kwargs ##ₘ extras ∧ template_vars a ##ₘ extras in
  (∀ k, template_vars a !! k =
        match of_model !! k with
        | Some v => Some v
        | None => match of_env !! k with
                  | Some v => Some v
                  | None => fields !! k
                  end
        end)
  ∧ (apart →
     render_template a tpl kwargs
       = lift (render t (kwargs ∪ template_vars a ∪ extras))
     ∧ ∀ k v,
         kwargs !! k = Some v ∨ template_vars a !! k = Some v
           ∨ extras !! k = Some v →
         (kwargs ∪ template_vars a ∪ extras) !! k = Some v)
  ∧ (¬ apart → render_template a tpl kwargs = Raise (PyErr TypeError)).
Proof.
  intros Ht fields of_env of_model extras apart. split_and!.
  - intros k. unfold template_vars, dict_or. fold of_env of_model fields.
    rewrite !lookup_union. by destruct (of_model !! k), (of_env !! k), (fields !! k).
  - intros Hapart. unfold render_template. rewrite Ht, spread_three.
    fold extras. rewrite bool_decide_eq_true_2 by done. split; [done|].
    destruct Hapart as (Hkv & Hke & Hve). intros k v [Hk|[Hk|Hk]].
    + apply lookup_union_Some_l. by apply lookup_union_Some_l.
    + apply lookup_union_Some_l. rewrite lookup_union_r; [done|].
      exact (map_disjoint_Some_r _ _ _ _ Hkv Hk).
    + rewrite lookup_union_r; [done|]. apply lookup_union_None_2.
      * exact (map_disjoint_Some_r _ _ _ _ Hke Hk).
      * exact (map_disjoint_Some_r _ _ _ _ Hve Hk).
  - intros Hclash. unfold render_template. rewrite Ht, spread_three.
    fold extras. by rewrite bool_decide_eq_false_2.
Qed.

(** [render_template] reads the config, the extras and the template
    variables of the two capabilities, and nothing else of the agent. *)
Lemma render_template_agrees a1 a2 tpl kwargs :
  config a1 = config a2 →
  extra_template_vars a1 = extra_template_vars a2 →
  env_get_template_vars (env a1) = env_get_template_vars (env a2) →
  model_get_template_vars (model a1) = model_get_template_vars (model a2) →
  render_template a1 tpl kwargs = render_template a2 tpl kwargs.
Proof.
  intros Hc Hx He Hm. unfold render_template, template_vars.
  by rewrite Hc, Hx, He, Hm.
Qed.

Lemma add_message_user a text :
  messages (add_message a (lit "user") (VStr text) ∅)
  = messages a ++ [user_message text].
Proof. unfold add_message, user_message. simpl. by rewrite (left_id_L ∅ (∪)). Qed.

Lemma run_loop_escaped fuel a e a' :
  run_loop fuel a = (Escaped e, a') →
  is_nonterminating e = false ∧ is_terminating e = false.
Proof.
  revert a. induction fuel as [|n IH]; intros a; [done|]. simpl.
  destruct (step a) as [[output|e0] a0]; [apply IH|].
  destruct (is_nonterminating e0) eqn:Hn; [apply IH|].
  destruct (is_terminating e0) eqn:Ht; [done|]. by intros [= <- <-].
Qed.

(** C5.  No [FormatError], [ExecutionTimeoutError], [Submitted] or
    [LimitsExceeded] leaves [run].  When [step] raises one of the
    first two, the loop appends its message as a user message and
    goes on; when [step] raises one of the last two, the loop appends
    its message as a user message and [run] returns the name of its
    type with its message. *)
Theorem run_catches_signals :
  (∀ fuel a task kwargs e a',
     run fuel a task kwargs = (Escaped e, a') → ∃ pe, e = PyErr pe)
  ∧ (∀ n a a' e,
       step a = (Raise e, a') →
       (∃ msg, e = FormatError msg ∨ e = ExecutionTimeoutError msg) →
       run_loop (S n) a
         = run_loop n (add_message a' (lit "user") (VStr (exn_str e)) ∅))
  ∧ (∀ n a a' e,
       step a = (Raise e, a') →
       (∃ msg, e = Submitted msg) ∨ e = LimitsExceeded →
       ∃ a'',
         run_loop (S n) a = (Returned (exn_name e) (exn_str e), a'')
         ∧ messages a'' = messages a' ++ [user_message (exn_str e)]).
Proof.
  split_and!.
  - intros fuel a task kwargs e a'. unfold run. cbv zeta.
    destruct (render_template _ _ _) as [sys|e1] eqn:H1.
    + match goal with
      | |- context [render_template ?x ?y ?z] =>
          destruct (render_template x y z) as [inst|e2] eqn:H2
      end.
      * intros [Hn Ht]%run_loop_escaped. destruct e; try done. eauto.
      * intros [= <- _]. by eapply render_template_raises.
    + intros [= <- _]. by eapply render_template_raises.
  - intros n a a' e Hstep [msg [-> | ->]]; simpl; by rewrite Hstep.
  - intros n a a' e Hstep [[msg ->] | ->]; simpl; rewrite Hstep; simpl;
      (eexists; split; [done|]); apply add_message_user.
Qed.

(** C6, amended.  The timeout of the command, with the output
    captured so far, and the bare [TimeoutError], without output, both
    end [execute_action] in the rendering of the timeout template with
    [action] bound to the action that failed and [output] to the text
    recovered: the empty string when nothing was captured, the
    captured text, or the captured bytes decoded.  When the rendering
    gives a text, [ExecutionTimeoutError] with this text is raised;
    when the rendering raises, that exception leaves [execute_action]
    and no [ExecutionTimeoutError] is raised. *)
Theorem execute_action_timeout a action command en :
  action !! "action" = Some command →
  let a' := set_env a en in
  let rendered text :=
    render_template a' (timeout_template (config a))
      (<["action" := VDict action]> {["output" := VStr text]}) in
  let raised text := rbind (rendered text) (λ msg, Raise (ExecutionTimeoutError msg)) in
  (env_execute (env a) command = (inl TimeoutError, en) →
   execute_action a action = (raised [], a'))
  ∧ (∀ c text,
       env_execute (env a) command = (inl (TimeoutExpired c), en) →
       partial_output c = inr text →
       execute_action a action = (raised text, a'))
  ∧ (∀ text msg, rendered text = Ok msg →
       raised text = Raise (ExecutionTimeoutError msg))
  ∧ (∀ text e, rendered text = Raise e →
       raised text = Raise e ∧ ∃ e', e = PyErr e')
  ∧ partial_output NoOutput = inr []
  ∧ partial_output (BytesOutput []) = inr []
  ∧ (∀ s, partial_output (TextOutput s) = inr s)
  ∧ (∀ b text, b ≠ [] → detect_and_decode b = inr text →
       partial_output (BytesOutput b) = inr text)
  ∧ (∀ b, b ≠ [] → detect_and_decode b = inl UnicodeDecodeError →
       partial_output (BytesOutput b) = decode_replace b getfilesystemencoding).
Proof.
  intros Hcmd a' rendered raised. split_and!; try done.
  - intros Hrun. unfold execute_action, run_command.
    by rewrite Hcmd, Hrun.
  - intros c text Hrun Hout. unfold execute_action, run_command.
    by rewrite Hcmd, Hrun, Hout.
  - intros text msg Hmsg. unfold raised. by rewrite Hmsg.
  - intros text e He. unfold raised. rewrite He. split; [done|].
    by eapply render_template_raises.
  - intros [|x b] text Hb Hdec; [done|]. simpl. by rewrite Hdec.
  - intros [|x b] Hb Hdec; [done|]. simpl. by rewrite Hdec.
Qed.

(** C2.  When the first non-blank line of the output, stripped, is one
    of the two markers, [execute_action] raises [Submitted] with the
    lines after that line, terminators kept, as its message: the
    empty string when no line follows. *)
Theorem execute_action_submits a action command output en text line :
  action !! "action" = Some command →
  env_execute (env a) command = (inr output, en) →
  output !! "output" = Some (VStr text)
    ∨ (∃ b, output !! "output" = Some (VBytes b) ∧ detect_and_decode b = inr text) →
  Marker.first_nonblank_line text = Some line →
  Py.strip line ∈ sentinels →
  execute_action a action
    = (Raise (Submitted (Marker.remaining_output text)), set_env a en).
Proof.
  intros Hcmd Hrun Hout Hline Hmark.
  assert (∀ d : dict, d !! "output" = Some (VStr text) →
    has_finished d = Raise (Submitted (Marker.remaining_output text))) as Hfin.
  { intros d Hd. unfold has_finished. rewrite Hd. simpl.
    unfold Marker.first_nonblank_line, Marker.remaining_output in *.
    pose proof (splitlines_lstrip text) as Hsplit.
    destruct (Marker.drop_blank (Py.splitlines text)) as [|l rest]; [done|].
    injection Hline as ->. destruct Hsplit as (l0 & -> & Hstrip).
    rewrite Hstrip. by rewrite bool_decide_eq_true_2. }
  unfold execute_action, run_command. rewrite Hcmd, Hrun.
  destruct Hout as [Hout | (b & Hout & Hdec)].
  - rewrite Hout. by rewrite (Hfin _ Hout).
  - rewrite Hout, Hdec. by rewrite Hfin by apply lookup_insert_eq.
Qed.

End AgentProperties.

(** A template in which no filter [random] occurs is a template of
    [MiniJinja], with the same chunks. *)
Lemma lex_plain n : ∀ s m cs, (length s ≤ n)%nat →
  RandomJinja.lex s m = Some (RandomJinja.Plain <$> cs) →
  MiniJinja.lex s m = Some cs.
Proof.
  induction n as [|n IH]; intros s m cs Hlen.
  - destruct s; [|simpl in Hlen; lia].
    destruct m; simpl; [|done].
    destruct cs as [|c [|? ?]]; try done. intros [= <-]. done.
  - destruct s as [|c s]; [destruct m; simpl; [|done];
      destruct cs as [|c' [|? ?]]; try done; by intros [= <-]|].
    simpl in Hlen.
    assert (∀ p ps, cons p <$> ps = Some (RandomJinja.Plain <$> cs) →
      ∃ c' cs', cs = c' :: cs' ∧ p = RandomJinja.Plain c'
                ∧ ps = Some (RandomJinja.Plain <$> cs')) as Hcons.
    { intros p [ps|]; [|done]. destruct cs as [|c' cs']; [done|].
      intros [= -> ->]. eauto. }
    destruct m as [acc|acc]; simpl.
    + destruct (c =? 123)%N; [|apply IH; lia].
      destruct s as [|c2 s]; [destruct cs as [|c' [|? ?]]; try done; by intros [= <-]|].
      simpl in Hlen.
      destruct (c2 =? 123)%N.
      * intros (c' & cs' & -> & [= <-] & Hrest)%Hcons.
        rewrite (IH _ _ cs'); [done|lia|done].
      * destruct (_ || _); [done|]. apply IH. simpl. lia.
    + destruct (c =? 125)%N; [|apply IH; lia].
      destruct s as [|c2 s]; [done|]. simpl in Hlen.
      destruct (c2 =? 125)%N; [|apply IH; simpl; lia].
      unfold RandomJinja.parse_piece.
      destruct (MiniJinja.parse_expr acc) as [e|].
      * intros (c' & cs' & -> & [= <-] & Hrest)%Hcons.
        rewrite (IH _ _ cs'); [done|lia|done].
      * destruct (RandomJinja.parse_random acc) as [p|] eqn:Hp; [|done].
        intros (c' & cs' & -> & -> & Hrest)%Hcons.
        exfalso. revert Hp. unfold RandomJinja.parse_random.
        repeat case_match; congruence.
Qed.

Lemma compile_plain tpl cs :
  RandomJinja.compile tpl = Some (RandomJinja.Plain <$> cs) →
  MiniJinja.compile tpl = Some cs.
Proof.
  unfold RandomJinja.compile, MiniJinja.compile.
  destruct (existsb _ _); [done|]. by apply (lex_plain _ _ _ _ (le_n _)).
Qed.

(** Chunks without the filter draw nothing from the generator. *)
Lemma render_pieces_plain {G} `{!RandomSource G} ctx cs (g : G) :
  RandomJinja.render_pieces ctx (RandomJinja.Plain <$> cs) g
  = (MiniJinja.render_chunks StrictUndefined ctx cs, g).
Proof.
  induction cs as [|c cs IH]; [done|]. rewrite fmap_cons.
  cbn [RandomJinja.render_pieces RandomJinja.piece_text MiniJinja.render_chunks].
  destruct (MiniJinja.chunk_text _ _ _); [done|].
  rewrite IH. by destruct (MiniJinja.render_chunks _ _ _).
Qed.

Section Repeatable.
Context {M E : Type} `{!Model M, !Environment E} {G : Type} `{!RandomSource G}.
Implicit Types a : DefaultAgent M E.

(** C9, amended.  For a template of text and variable references, in
    which the filter [random] does not occur, a call of
    [render_template] leaves the random generator as it found it and
    its result is the one of the engine without the generator; a
    second call with the same template and keyword arguments, in a
    state of the agent with the same config, extras and template
    variables of the two capabilities, and in whatever state of the
    generator, has the same result. *)
Theorem render_template_repeatable a1 a2 tpl kwargs cs (g1 g2 : G) :
  RandomJinja.compile tpl = Some (RandomJinja.Plain <$> cs) →
  config a1 = config a2 →
  extra_template_vars a1 = extra_template_vars a2 →
  env_get_template_vars (env a1) = env_get_template_vars (env a2) →
  model_get_template_vars (model a1) = model_get_template_vars (model a2) →
  render_template_rng a1 tpl kwargs g1 = (render_template a1 tpl kwargs, g1)
  ∧ render_template_rng a2 tpl kwargs g2 = (render_template a1 tpl kwargs, g2).
Proof.
  intros Hps Hc Hx He Hm.
  assert (∀ a (g : G), render_template_rng a tpl kwargs g
                       = (render_template a tpl kwargs, g)) as Hpure.
  { intros a g. unfold render_template_rng, render_template. rewrite Hps.
    cbn [Template render MiniJinja.engine]. rewrite (compile_plain _ _ Hps).
    destruct (spread [kwargs; template_vars a; extra_template_vars a]) as [ctx|];
      [|done].
    unfold RandomJinja.render_in, MiniJinja.render_in. cbn [fst snd].
    destruct (ctx !! "self"); [done|]. by rewrite render_pieces_plain. }
  split; [apply Hpure|]. rewrite Hpure. f_equal.
  symmetry. by apply render_template_agrees.
Qed.

End Repeatable.

(** ** Rendering with jinja2's [StrictUndefined] *)

Section StrictRendering.
Context {M E : Type} `{!Model M, !Environment E, !Codecs}.
Implicit Types (a : DefaultAgent M E).

Lemma render_chunks_inr p ctx before c after text :
  MiniJinja.render_chunks p ctx (before ++ c :: after) = inr text →
  ∃ t, MiniJinja.chunk_text p ctx c = inr t.
Proof.
  revert text. induction before as [|c0 before IH]; intros text; simpl.
  - destruct (MiniJinja.chunk_text p ctx c); [done|eauto].
  - destruct (MiniJinja.chunk_text p ctx c0); [done|].
    destruct (MiniJinja.render_chunks p ctx (before ++ c :: after)); [done|].
    intros _. by eapply IH.
Qed.

Lemma render_chunks_undefined ctx before x key after text :
  MiniJinja.render_chunks StrictUndefined ctx before = inr text →
  ctx !! x = None →
  MiniJinja.render_chunks StrictUndefined ctx
    (before ++ MiniJinja.Output x key :: after) = inl UndefinedError.
Proof.
  revert text. induction before as [|c0 before IH]; intros text; simpl.
  - intros _ Hx. rewrite Hx. by destruct key.
  - destruct (MiniJinja.chunk_text _ ctx c0); [done|].
    destruct (MiniJinja.render_chunks _ ctx before) eqn:Hb; [done|].
    intros _ Hx. by rewrite (IH _ eq_refl Hx).
Qed.

(** C8.  A template that prints a variable no source defines is not
    rendered, with a blank or otherwise: [render_template] raises,
    and raises jinja2's [UndefinedError] when the variable is the
    first thing to go wrong.  The loop of [run] has no handler for
    it: what [step] raises outside the agent's own exceptions leaves
    [run] as it is, and the loop appends nothing to the messages
    [step] left. *)
Theorem undefined_variable_is_fatal a tpl kwargs before x key after :
  MiniJinja.compile tpl = Some (before ++ MiniJinja.Output x key :: after) →
  kwargs !! x = None →
  template_vars a !! x = None →
  extra_template_vars a !! x = None →
  (∀ text, render_template a tpl kwargs ≠ Ok text)
  ∧ (∀ context text,
       spread [kwargs; template_vars a; extra_template_vars a] = Some context →
       context !! "self" = None →
       MiniJinja.render_chunks StrictUndefined context before = inr text →
       render_template a tpl kwargs = Raise (PyErr UndefinedError))
  ∧ (∀ n a0 a1 pe,
       step a0 = (Raise (PyErr pe), a1) →
       run_loop (S n) a0 = (Escaped (PyErr pe), a1)).
Proof.
  intros Hc Hk Hv Hx.
  assert (∀ context,
    spread [kwargs; template_vars a; extra_template_vars a] = Some context →
    context !! x = None) as Hctx.
  { intros context. rewrite spread_three. case_bool_decide; [|done].
    intros [= <-]. rewrite !lookup_union, Hk, Hv, Hx. done. }
  split_and!.
  - intros text. unfold render_template. cbn [Template MiniJinja.engine].
    rewrite Hc. destruct (spread _) as [context|] eqn:Hs; [|done].
    specialize (Hctx context eq_refl).
    cbn [render MiniJinja.engine]. unfold MiniJinja.render_in.
    destruct (context !! "self"); [done|]. cbn [fst snd].
    destruct (MiniJinja.render_chunks _ _ _) as [e|whole] eqn:Hr; [done|].
    apply render_chunks_inr in Hr as [t Ht]. simpl in Ht.
    rewrite Hctx in Ht. by destruct key.
  - intros context text Hs Hself Hb. unfold render_template.
    cbn [Template MiniJinja.engine]. rewrite Hc, Hs.
    cbn [render MiniJinja.engine]. unfold MiniJinja.render_in.
    rewrite Hself. cbn [fst snd].
    by rewrite (render_chunks_undefined _ _ _ _ _ _ Hb (Hctx _ Hs)).
  - intros n a0 a1 pe Hstep. simpl. by rewrite Hstep.
Qed.

End StrictRendering.

(** ** Decoding the output of a command *)

Section Decoding.
Context {M E : Type} `{!Model M, !Environment E, !TemplateEngine, !Codecs}.
Implicit Types (a : DefaultAgent M E) (action output : dict).

(** X13.  What [execute_action] returns has text under [output],
    never bytes: bytes the environment returned are decoded before
    the output leaves, or an exception leaves instead. *)
Lemma execute_action_output_is_text a action output a' b :
  execute_action a action = (Ok output, a') →
  output !! "output" ≠ Some (VBytes b).
Proof.
  unfold execute_action, run_command.
  destruct (action !! "action") as [command|]; [|done].
  assert (∀ e a0,
    match e with
    | TimeoutExpired c =>
        (rbind (lift (partial_output c)) (timeout_error a0 action), a0)
    | TimeoutError => (timeout_error a0 action [], a0)
    | _ => (Raise (PyErr e), a0)
    end ≠ (Ok output, a')) as Hraise.
  { intros e a0. destruct e; try done; simpl.
    - destruct (partial_output _); simpl; [done|].
      unfold timeout_error. by destruct (render_template _ _ _).
    - unfold timeout_error. by destruct (render_template _ _ _). }
  destruct (env_execute _ _) as [[e|out] en].
  { intros Heq. by apply Hraise in Heq. }
  destruct (out !! "output") as [v|] eqn:Hout; [|done].
  assert (∀ d : dict, (∀ b, d !! "output" ≠ Some (VBytes b)) →
    (rbind (has_finished d) (λ _, Ok d), set_env a en) = (Ok output, a') →
    output !! "output" ≠ Some (VBytes b)) as Hd.
  { intros d Hd. destruct (has_finished d); simpl; [|done].
    intros [= <- _]. apply Hd. }
  destruct v; try (apply Hd; intros b'; by rewrite Hout).
  destruct (detect_and_decode _) as [e|text].
  - intros Heq. by apply Hraise in Heq.
  - apply Hd. intros b'. by rewrite lookup_insert_eq.
Qed.

(** On the path without timeout nothing catches what decoding
    raises. *)
Lemma execute_action_decode_error a action command output en b :
  action !! "action" = Some command →
  env_execute (env a) command = (inr output, en) →
  output !! "output" = Some (VBytes b) →
  detect_and_decode b = inl UnicodeDecodeError →
  execute_action a action = (Raise (PyErr UnicodeDecodeError), set_env a en).
Proof.
  intros Hcmd Hrun Hout Hdec. unfold execute_action, run_command.
  by rewrite Hcmd, Hrun, Hout, Hdec.
Qed.

End Decoding.


(** ** The properties at work on the scripted agents *)



Lemma parse_action_response_overrides_witness :
  ∃ action,
    parse_action (Examples.asking Scripted.example_config
                    (inr (Scripted.text_output (lit "gone"))))
      Examples.with_action_field = Ok action
    ∧ action !! "action" = Some (VStr (lit "rm -rf /"))
    ∧ Scripted.received
        (env (execute_action
                (Examples.asking Scripted.example_config
                   (inr (Scripted.text_output (lit "gone")))) action).2)
      = [VStr (lit "rm -rf /")].
Proof.
  assert (∃ action,
    parse_action (Examples.asking Scripted.example_config
                    (inr (Scripted.text_output (lit "gone"))))
      Examples.with_action_field = Ok action) as [action Hparse]
    by (eexists; vm_compute; reflexivity).
  exists action. split; [exact Hparse|].
  destruct (parse_action_response_overrides
              (Examples.asking Scripted.example_config
                 (inr (Scripted.text_output (lit "gone"))))
              Examples.with_action_field action (VStr (lit "rm -rf /"))
              ltac:(vm_compute; reflexivity) Hparse)
    as (Hfield & r & en & Hrun & Hstate).
  split; [exact Hfield|]. rewrite Hstate. simpl.
  vm_compute in Hrun. injection Hrun as _ <-. reflexivity.
Defined.

Lemma query_limits_witness :
  query Examples.spent = (Raise LimitsExceeded, Examples.spent)
  ∧ (query Examples.unlimited).1 ≠ Raise LimitsExceeded.
Proof.
  split.
  - destruct (query_limits Examples.spent) as (Hiff & Hsame & _).
    apply Hsame, Hiff. left. vm_compute. split; [reflexivity | congruence].
  - destruct (query_limits Examples.unlimited) as (_ & _ & Hnever).
    apply Hnever; vm_compute; [congruence | reflexivity].
Defined.

Lemma render_template_context_witness :
  render_template Examples.overriding (lit "{{step_limit}} {{shell}} {{task}}")
    {["task" := VStr (lit "x")]}
  = Ok (lit "9 bash x").
Proof.
  destruct (render_template_context Examples.overriding
              (lit "{{step_limit}} {{shell}} {{task}}")
              {["task" := VStr (lit "x")]}
              ((StrictUndefined,
                [MiniJinja.Data []; MiniJinja.Output "step_limit" None;
                 MiniJinja.Data (lit " "); MiniJinja.Output "shell" None;
                 MiniJinja.Data (lit " "); MiniJinja.Output "task" None;
                 MiniJinja.Data []]) : @template MiniJinja.engine)
              ltac:(vm_compute; reflexivity))
    as (_ & Hrender & _).
  destruct Hrender as [-> _].
  - split_and!; apply (bool_decide_unpack _); vm_compute; exact I.
  - vm_compute. reflexivity.
Defined.

(** C4 as stated fails when a name is given twice: an extra of the run
    or a variable of the call that has the name of a config field
    makes the call fail, and so does [run] with such an extra. *)
Lemma render_template_counterexample :
  render_template
    (set_extra_template_vars Examples.idle {["step_limit" := VInt 5]})
    (lit "{{step_limit}}") ∅
  = Raise (PyErr TypeError)
  ∧ render_template Examples.idle (lit "{{step_limit}}") {["step_limit" := VInt 7]}
    = Raise (PyErr TypeError)
  ∧ (run 1 Examples.idle (lit "list files") {["step_limit" := VInt 5]}).1
    = Escaped (PyErr TypeError).
Proof. split_and!; vm_compute; reflexivity. Defined.

Lemma render_template_repeatable_witness :
  render_template_rng Examples.idle (lit "Your task: {{task}}.")
    {["task" := VStr (lit "x")]} [0; 1]%nat
  = (Ok (lit "Your task: x."), [0; 1]%nat)
  ∧ render_template_rng Examples.idle_later (lit "Your task: {{task}}.")
      {["task" := VStr (lit "x")]} [1%nat]
    = (Ok (lit "Your task: x."), [1%nat]).
Proof.
  destruct (render_template_repeatable Examples.idle Examples.idle_later
              (lit "Your task: {{task}}.") {["task" := VStr (lit "x")]}
              [MiniJinja.Data (lit "Your task: "); MiniJinja.Output "task" None;
               MiniJinja.Data (lit ".")]
              [0; 1]%nat [1%nat]
              ltac:(vm_compute; reflexivity) eq_refl eq_refl eq_refl eq_refl)
    as [-> ->].
  split; vm_compute; reflexivity.
Defined.

Lemma render_template_random_counterexample :
  render_template_rng Examples.idle Examples.random_template Examples.choices
    [0; 1]%nat
  = (Ok (lit "a"), [1%nat])
  ∧ render_template_rng Examples.idle Examples.random_template Examples.choices
      [1%nat]
    = (Ok (lit "b"), []).
Proof. split; vm_compute; reflexivity. Defined.

Lemma run_catches_signals_witness :
  (run_loop 1 (Scripted.make_agent Scripted.example_config
                 (Scripted.fresh_model [inr (Scripted.reply (lit "no block"))])
                 (Scripted.fresh_env []))).1
  = Running
  ∧ (run_loop 1 (Examples.asking Scripted.example_config
                   (inr (Scripted.text_output Examples.answer)))).1
    = Returned "Submitted" (lit "Answer: 42" ++ [10%N]).
Proof.
  destruct (run_catches_signals (M := Scripted.model_state) (E := Scripted.env_state))
    as (_ & Hgoes_on & Hreturns).
  split.
  - set (a := Scripted.make_agent _ _ _).
    rewrite (Hgoes_on 0%nat a (step a).2
               (FormatError (lit "Please provide exactly one action."))).
    + reflexivity.
    + vm_compute. reflexivity.
    + eexists. left. reflexivity.
  - set (a := Examples.asking _ _).
    destruct (Hreturns 0%nat a (step a).2 (Submitted (lit "Answer: 42" ++ [10%N])))
      as (a'' & -> & _).
    + vm_compute. reflexivity.
    + left. eexists. reflexivity.
    + reflexivity.
Defined.

Lemma execute_action_timeout_witness :
  execute_action (Examples.asking Scripted.example_config (inl TimeoutError))
    Examples.ls_action
  = (Raise (ExecutionTimeoutError
              (lit "<command>ls</command> timed out: <output></output>")),
     set_env (Examples.asking Scripted.example_config (inl TimeoutError))
       (Examples.after_command (VStr (lit "ls"))))
  ∧ execute_action
      (Examples.asking Scripted.example_config
         (inl (TimeoutExpired (BytesOutput Examples.cut_short))))
      Examples.ls_action
    = (Raise (ExecutionTimeoutError
                (lit "<command>ls</command> timed out: <output>partial"
                   ++ [65533%N] ++ lit "</output>")),
       set_env
         (Examples.asking Scripted.example_config
            (inl (TimeoutExpired (BytesOutput Examples.cut_short))))
         (Examples.after_command (VStr (lit "ls")))).
Proof.
  split.
  - destruct (execute_action_timeout
                (Examples.asking Scripted.example_config (inl TimeoutError))
                Examples.ls_action (VStr (lit "ls"))
                (Examples.after_command (VStr (lit "ls")))
                ltac:(vm_compute; reflexivity))
      as (Hbare & _).
    rewrite Hbare; vm_compute; reflexivity.
  - destruct (execute_action_timeout
                (Examples.asking Scripted.example_config
                   (inl (TimeoutExpired (BytesOutput Examples.cut_short))))
                Examples.ls_action (VStr (lit "ls"))
                (Examples.after_command (VStr (lit "ls")))
                ltac:(vm_compute; reflexivity))
      as (_ & Hcaptured & _).
    rewrite (Hcaptured (BytesOutput Examples.cut_short)
               (lit "partial" ++ [65533%N]));
      vm_compute; reflexivity.
Defined.

Lemma execute_action_timeout_counterexample :
  (execute_action (Examples.with_output (inl TimeoutError)) Examples.ls_action).1
  = Raise (PyErr TypeError)
  ∧ (execute_action
       (Examples.with_output (inl (TimeoutExpired (TextOutput (lit "partial")))))
       Examples.ls_action).1
    = Raise (PyErr TypeError)
  ∧ (run 5 (Examples.asking Scripted.example_config (inl TimeoutError))
       (lit "list files") {["output" := VStr (lit "x")]}).1
    = Escaped (PyErr TypeError).
Proof. split_and!; vm_compute; reflexivity. Defined.

Lemma execute_action_submits_witness :
  execute_action
    (Examples.asking Scripted.example_config
       (inr (Scripted.text_output Examples.answer)))
    Examples.ls_action
  = (Raise (Submitted (lit "Answer: 42" ++ [10%N])),
     set_env
       (Examples.asking Scripted.example_config
          (inr (Scripted.text_output Examples.answer)))
       (Examples.after_command (VStr (lit "ls"))))
  ∧ execute_action
      (Examples.asking Scripted.example_config
         (inr (Scripted.text_output Examples.marker_only)))
      Examples.ls_action
    = (Raise (Submitted []),
       set_env
         (Examples.asking Scripted.example_config
            (inr (Scripted.text_output Examples.marker_only)))
         (Examples.after_command (VStr (lit "ls")))).
Proof.
  split.
  - apply (execute_action_submits _ _ (VStr (lit "ls"))
             (Scripted.text_output Examples.answer) _ Examples.answer
             (lit "  COMPLETE_TASK_AND_SUBMIT_FINAL_OUTPUT " ++ [13; 10]%N)).
    + vm_compute. reflexivity.
    + vm_compute. reflexivity.
    + left. vm_compute. reflexivity.
    + vm_compute. reflexivity.
    + apply (bool_decide_unpack _). vm_compute. exact I.
  - apply (execute_action_submits _ _ (VStr (lit "ls"))
             (Scripted.text_output Examples.marker_only) _ Examples.marker_only
             Examples.marker_only).
    + vm_compute. reflexivity.
    + vm_compute. reflexivity.
    + left. vm_compute. reflexivity.
    + vm_compute. reflexivity.
    + apply (bool_decide_unpack _). vm_compute. exact I.
Defined.

Lemma undefined_variable_is_fatal_witness :
  render_template
    (Examples.asking Examples.typo_config (inr (Scripted.text_output (lit "a.txt"))))
    (lit "Observation: {{outpt}}")
    {["output" := VDict (Scripted.text_output (lit "a.txt"))]}
  = Raise (PyErr UndefinedError)
  ∧ (run 5
       (Examples.asking Examples.typo_config
          (inr (Scripted.text_output (lit "a.txt"))))
       (lit "list files") ∅).1
    = Escaped (PyErr UndefinedError)
  ∧ length
      (messages
         (run 5
            (Examples.asking Examples.typo_config
               (inr (Scripted.text_output (lit "a.txt"))))
            (lit "list files") ∅).2)
    = 3%nat.
Proof.
  split_and!; [|vm_compute; reflexivity..].
  destruct (undefined_variable_is_fatal
              (Examples.asking Examples.typo_config
                 (inr (Scripted.text_output (lit "a.txt"))))
              (lit "Observation: {{outpt}}")
              {["output" := VDict (Scripted.text_output (lit "a.txt"))]}
              [MiniJinja.Data (lit "Observation: ")] "outpt" None
              [MiniJinja.Data []])
    as (_ & Hfirst & _); [vm_compute; reflexivity..|].
  eapply Hfirst; vm_compute; reflexivity.
Defined.

(** Under jinja2's default policy the same template would have been
    rendered with a blank for the variable. *)
Example undefined_would_be_blank :
  MiniJinja.render_in
    (Undefined, [MiniJinja.Data (lit "Observation: ");
                 MiniJinja.Output "outpt" None; MiniJinja.Data []])
    {["output" := VStr (lit "a.txt")]}
  = inr (lit "Observation: ").
Proof. reflexivity. Qed.

(** C7, the input on which the code goes wrong.  The environment
    returns the four bytes FE FF 00 00 as output.  chardet reads them
    as the encoding [X-ISO-10646-UCS-4-3412], no codec has that name,
    and [decode] raises [LookupError]: [execute_action] raises it, and
    it leaves [run].  On the timeout path the same bytes as partial
    output do the same: the fallback there catches
    [UnicodeDecodeError] alone. *)
Theorem undecodable_output_escapes :
  (execute_action
     (Examples.asking Scripted.example_config (inr Examples.blob_output))
     Examples.ls_action).1
  = Raise (PyErr LookupError)
  ∧ (run 5 (Examples.asking Scripted.example_config (inr Examples.blob_output))
       (lit "list files") ∅).1
    = Escaped (PyErr LookupError)
  ∧ (execute_action
       (Examples.asking Scripted.example_config
          (inl (TimeoutExpired (BytesOutput Examples.blob))))
       Examples.ls_action).1
    = Raise (PyErr LookupError).
Proof. split_and!; vm_compute; reflexivity. Qed.


(** * More properties of the code *)

(** ** The blocks [parse_action] finds *)

Lemma strip_prefix_app p s : Re.strip_prefix p (p ++ s) = Some s.
Proof. induction p as [|c p IH]; [done|]. simpl. by rewrite N.eqb_refl. Qed.

(** The lazy star stops at the first place where the rest matches. *)
Lemma star_lazy_first cls s k m :
  Re.star_lazy cls s k = Some m →
  ∃ ws s', s = ws ++ s' ∧ k s' = Some m
    ∧ ∀ x y, ws = x ++ y → y ≠ [] → k (y ++ s') = None.
Proof.
  induction s as [|c s IH]; simpl.
  - destruct (k []) eqn:Hk; [|done]. intros [= ->]. exists [], [].
    split_and!; [done..|]. intros x y Hxy Hy. by destruct x, y.
  - destruct (k (c :: s)) eqn:Hk.
    + intros [= ->]. exists [], (c :: s). split_and!; [done..|].
      intros x y Hxy Hy. by destruct x, y.
    + destruct (cls c); [|done].
      intros (ws & s' & -> & Hk' & Hmin)%IH.
      exists (c :: ws), s'. split_and!; [done..|].
      intros [|c' x] y Hxy Hy; simpl in Hxy.
      * by subst y.
      * injection Hxy as _ ->. by apply (Hmin x).
Qed.

Lemma star_lazy_complete cls x s' k :
  forallb cls x = true → is_Some (k s') → is_Some (Re.star_lazy cls (x ++ s') k).
Proof.
  induction x as [|c x IH]; simpl.
  - intros _ [m Hm]. destruct s'; simpl; rewrite Hm; eauto.
  - intros [Hc Hx]%andb_true_iff Hk.
    destruct (k (c :: x ++ s')); [eauto|]. rewrite Hc. by apply IH.
Qed.

Lemma star_greedy_complete cls s k :
  is_Some (k s) → is_Some (Re.star_greedy cls s k).
Proof.
  intros Hk. destruct s as [|c s]; simpl; [done|].
  destruct (cls c); [|done]. by destruct (Re.star_greedy cls s k).
Qed.

(** The block a match captures holds no closing fence. *)
Lemma match_here_action_lazy s rest block :
  Re.match_here action_regex s = Some (rest, [block]) →
  ∀ x y, block ≠ x ++ (10%N :: fence) ++ y.
Proof.
  unfold Re.match_here, action_regex. cbn [Re.rmatch].
  destruct (Re.strip_prefix _ s) as [s1|] eqn:H1; [|done].
  intros (ws & s2 & -> & Hws & H2)%star_greedy_Some.
  destruct (Re.strip_prefix [10%N] s2) as [s3|] eqn:H3; [|done].
  apply star_lazy_first in H2 as (b & s4 & -> & H4 & Hmin).
  destruct (Re.strip_prefix (10%N :: fence) s4) as [s5|] eqn:H5; [|done].
  apply strip_prefix_Some in H5 as ->.
  injection H4 as _ Hb.
  rewrite length_app in Hb. cbn [length] in Hb.
  replace (_ + _ - _)%nat with (length b) in Hb by lia.
  rewrite take_app_length in Hb. subst b.
  intros x y ->.
  specialize (Hmin x ((10%N :: fence) ++ y) eq_refl ltac:(done)).
  rewrite <- (assoc_L (++)) in Hmin. by rewrite strip_prefix_app in Hmin.
Qed.

(** X1.  Every block [re.findall] returns for the pattern of
    [parse_action] stands in the content between the opening fence
    with its tag, whitespace and a newline on one side and a newline
    and the closing fence on the other, and holds no newline followed
    by a fence itself: a block ends at the first closing fence. *)
Theorem findall_action_blocks content block :
  block ∈ Re.findall action_regex content →
  (∃ before ws after,
     content = before ++ (fence ++ lit "bash") ++ ws ++ [10%N] ++ block
                 ++ (10%N :: fence) ++ after
     ∧ forallb Py.isspace ws = true)
  ∧ ∀ x y, block ≠ x ++ (10%N :: fence) ++ y.
Proof.
  intros Hin. split; [by apply findall_action_sound|].
  revert Hin. unfold Re.findall. generalize 0%nat as skip.
  induction content as [|c s IH]; intros skip; [by intros ?%elem_of_nil|].
  cbn [Re.findall_from]. destruct skip as [|n]; [|apply IH].
  destruct (Re.match_here action_regex (c :: s)) as [[rest caps]|] eqn:Hm;
    [|apply IH].
  intros [->|Hin]%elem_of_cons; [|by eapply IH].
  destruct (match_here_action _ _ _ Hm) as (ws & b & _ & _ & ->).
  by eapply match_here_action_lazy.
Qed.

Lemma findall_action_blocks_witness :
  (∃ before ws after,
     Scripted.fenced "ls"
     = before ++ (fence ++ lit "bash") ++ ws ++ [10%N] ++ lit "ls"
         ++ (10%N :: fence) ++ after
     ∧ forallb Py.isspace ws = true)
  ∧ ∀ x y, lit "ls" ≠ x ++ (10%N :: fence) ++ y.
Proof.
  apply (findall_action_blocks (Scripted.fenced "ls") (lit "ls")).
  vm_compute. constructor.
Defined.

(** The one fence of a text without other backticks is where it is. *)
Lemma fence_unique (X Y X' Y' : str) :
  96%N ∉ X → 96%N ∉ Y →
  X ++ fence ++ Y = X' ++ fence ++ Y' → X' = X ∧ Y' = Y.
Proof.
  revert X'. induction X as [|c X IH]; intros X' HX HY Heq.
  - destruct X' as [|c1 [|c2 [|c3 X']]]; simplify_eq/=; [done|..];
      exfalso; apply HY; set_solver.
  - destruct X' as [|c' X']; simplify_eq/=.
    + exfalso. apply HX. set_solver.
    + destruct (IH X') as [-> ->]; [set_solver..|done|done].
Qed.

Lemma strip_space_app w s :
  forallb Py.isspace w = true → Py.strip (w ++ s) = Py.strip s.
Proof.
  induction w as [|c w IH]; [done|]. simpl.
  intros [Hc Hw]%andb_true_iff. rewrite strip_space_cons by done. by apply IH.
Qed.

Lemma match_here_no_fence c s :
  c ≠ 96%N → Re.match_here action_regex (c :: s) = None.
Proof.
  intros Hc. unfold Re.match_here, action_regex, fence.
  cbn [Re.rmatch app Re.strip_prefix].
  by rewrite (proj2 (N.eqb_neq 96 c)).
Qed.

Lemma findall_from_prose prose s :
  96%N ∉ prose →
  Re.findall_from action_regex (prose ++ s) 0
  = Re.findall_from action_regex s 0.
Proof.
  induction prose as [|c prose IH]; [done|]. intros Hno.
  cbn [app Re.findall_from]. rewrite match_here_no_fence by set_solver.
  apply IH. set_solver.
Qed.

Lemma findall_from_skip r (x y : str) :
  Re.findall_from r (x ++ y) (length x) = Re.findall_from r y 0.
Proof. induction x as [|c x IH]; [done|]. simpl. apply IH. Qed.

(** A match exists wherever the text goes on with a fenced block. *)
Lemma match_here_action_complete block rest :
  is_Some (Re.match_here action_regex
             ((fence ++ lit "bash") ++ [10%N] ++ block ++ (10%N :: fence) ++ rest)).
Proof.
  unfold Re.match_here, action_regex. cbn [Re.rmatch].
  rewrite strip_prefix_app. apply star_greedy_complete.
  rewrite (strip_prefix_app [10%N]).
  apply star_lazy_complete; [by apply forallb_forall|].
  rewrite strip_prefix_app. eauto.
Qed.

(** After a match the scan goes on behind it. *)
Lemma findall_from_match r c (m rest : str) caps :
  Re.match_here r (c :: m ++ rest) = Some (rest, caps) →
  Re.findall_from r (c :: m ++ rest) 0
  = default [] (head caps) :: Re.findall_from r rest 0.
Proof.
  intros Hm. cbn [Re.findall_from]. rewrite Hm. f_equal.
  replace (length (c :: m ++ rest) - length rest - 1)%nat with (length m)
    by (cbn [length]; rewrite length_app; lia).
  apply findall_from_skip.
Qed.

(** The match at the one fenced block of a text without other
    backticks: it ends at the closing fence and captures the command,
    but for whitespace at its head. *)
Lemma match_here_action_fenced command epilogue rest caps :
  96%N ∉ command → 96%N ∉ epilogue →
  Re.match_here action_regex
    ((fence ++ lit "bash") ++ [10%N] ++ command ++ (10%N :: fence) ++ epilogue)
  = Some (rest, caps) →
  rest = epilogue ∧ ∃ block, caps = [block] ∧ Py.strip block = Py.strip command.
Proof.
  intros Hcommand Hepilogue Hm.
  destruct (match_here_action _ _ _ Hm) as (ws & block & Hs & Hws & ->).
  apply app_inv_head in Hs.
  destruct (fence_unique ([10%N] ++ command ++ [10%N]) epilogue
              (ws ++ [10%N] ++ block ++ [10%N]) rest) as [Hx Hy].
  - set_solver.
  - done.
  - rewrite <- !(assoc_L (++)). exact Hs.
  - split; [done|]. exists block. split; [done|].
    rewrite !(assoc_L (++)) in Hx. apply app_inj_tail in Hx as [Hx _].
    destruct ws as [|c ws]; simpl in Hx.
    + by injection Hx as ->.
    + injection Hx as -> <-. simpl in Hws. symmetry.
      apply strip_space_app. by rewrite forallb_app, Hws.
Qed.

(** X2.  A response whose content is prose, one fenced block and more
    prose, with no backtick in any of the three, is parsed into the
    action of that block: the field [action] is the block, trimmed.
    What [parse_action] makes of a command written between the fences
    is the command. *)
Theorem parse_action_fenced {M E : Type}
    `{!Model M, !Environment E, !TemplateEngine, !Codecs}
    (a : DefaultAgent M E) (response : dict) (prose command epilogue : str) :
  96%N ∉ prose → 96%N ∉ command → 96%N ∉ epilogue →
  response !! "content"
    = Some (VStr (prose ++ (fence ++ lit "bash") ++ [10%N] ++ command
                    ++ (10%N :: fence) ++ epilogue)) →
  response !! "action" = None →
  ∃ action,
    parse_action a response = Ok action
    ∧ action !! "action" = Some (VStr (Py.strip command)).
Proof.
  intros Hprose Hcommand Hepilogue Hcontent Haction.
  destruct (match_here_action_complete command epilogue) as [[rest caps] Hm].
  destruct (match_here_action_fenced _ _ _ _ Hcommand Hepilogue Hm)
    as (-> & block & -> & Hstrip).
  assert (Re.findall action_regex
            (prose ++ (fence ++ lit "bash") ++ [10%N] ++ command
               ++ (10%N :: fence) ++ epilogue) = [block]) as Hfind.
  { unfold Re.findall. rewrite findall_from_prose by done.
    assert ((fence ++ lit "bash") ++ [10%N] ++ command
              ++ (10%N :: fence) ++ epilogue
            = 96%N :: ([96; 96]%N ++ lit "bash" ++ [10%N] ++ command
                         ++ (10%N :: fence)) ++ epilogue) as Heq
      by (cbn; by rewrite <- !(assoc_L (++))).
    rewrite Heq in Hm |- *.
    rewrite (findall_from_match _ _ _ _ _ Hm). cbn [head default]. f_equal.
    rewrite <- (app_nil_r epilogue). by rewrite findall_from_prose. }
  unfold parse_action. rewrite Hcontent, Hfind.
  eexists. split; [done|].
  rewrite lookup_union_r by done. by rewrite lookup_singleton_eq, Hstrip.
Qed.

Lemma parse_action_fenced_witness :
  ∃ action,
    parse_action Examples.idle Examples.one_block = Ok action
    ∧ action !! "action" = Some (VStr (lit "ls")).
Proof.
  apply (parse_action_fenced Examples.idle Examples.one_block
           (lit "Let me try." ++ [10%N]) (lit "ls") []).
  - apply (bool_decide_unpack _). vm_compute. exact I.
  - apply (bool_decide_unpack _). vm_compute. exact I.
  - apply (bool_decide_unpack _). vm_compute. exact I.
  - vm_compute. reflexivity.
  - vm_compute. reflexivity.
Defined.

(** ** What the operations of the agent change *)

Section Frames.
Context {M E : Type} `{!Model M, !Environment E, !TemplateEngine, !Codecs}.
Implicit Types (a : DefaultAgent M E) (response action output : dict).

(** [execute_action] changes the environment and nothing else. *)
Lemma execute_action_frame a action r a' :
  execute_action a action = (r, a') → ∃ en, a' = set_env a en.
Proof.
  unfold execute_action, run_command.
  destruct (action !! "action") as [command|].
  - destruct (env_execute _ _) as [[e|out] en].
    + destruct e; intros [= _ <-]; eauto.
    + destruct (out !! "output") as [[]|]; try (intros [= _ <-]; eauto).
      destruct (detect_and_decode _) as [e|text].
      * destruct e; intros [= _ <-]; eauto.
      * intros [= _ <-]; eauto.
  - intros [= _ <-]. exists (env a). by destruct a.
Qed.

(** [query] leaves the agent as it is, or calls the model once and
    then appends at most the assistant's message. *)
Lemma query_frame a r a' :
  query a = (r, a') →
  (a' = a ∧ r = Raise LimitsExceeded)
  ∨ ∃ x m, limits_exceeded a = false
      ∧ model_query (model a) (messages a) = (x, m)
      ∧ ((a' = set_model a m ∧ ∃ pe, r = Raise (PyErr pe))
         ∨ ∃ response content,
             x = inr response ∧ r = Ok response
             ∧ response !! "role" = None
             ∧ response !! "content" = Some content
             ∧ a' = add_message (set_model a m) (lit "assistant") content
                      (delete "content" response)).
Proof.
  unfold query. destruct (limits_exceeded a); [intros [= <- <-]; by left|].
  destruct (model_query _ _) as [[e|response] m] eqn:Hq; intros Hr; right;
    eexists _, m; (split; [done|]); (split; [done|]).
  - injection Hr as <- <-. left. eauto.
  - destruct (response !! "self"), (response !! "role") eqn:Hrole,
      (response !! "content") eqn:Hc; injection Hr as <- <-;
      try (left; split; [done|eauto]).
    right. eauto 10.
Qed.

End Frames.

(** ** Executing and querying *)

Section Calls.
Context {M E : Type} `{!Model M, !Environment E, !TemplateEngine, !Codecs}.
Implicit Types (a : DefaultAgent M E) (response action output : dict).

Lemma has_finished_no_marker (d : dict) text :
  d !! "output" = Some (VStr text) →
  (∀ line, Marker.first_nonblank_line text = Some line →
           Py.strip line ∉ sentinels) →
  has_finished d = Ok tt.
Proof.
  intros Hd Hno. unfold has_finished. rewrite Hd. simpl.
  unfold Marker.first_nonblank_line in Hno.
  pose proof (splitlines_lstrip text) as Hsplit.
  destruct (Marker.drop_blank (Py.splitlines text)) as [|l rest].
  - by rewrite Hsplit.
  - destruct Hsplit as (l0 & -> & Hstrip). rewrite Hstrip.
    by rewrite bool_decide_eq_false_2 by by apply Hno.
Qed.

(** X3.  When the first non-blank line of the output is none of the
    two markers, or the output has no such line, [execute_action]
    returns the output of the environment: as it is when it is text,
    with the bytes under [output] replaced by their decoding when it
    is bytes.  A marker on a later line submits nothing. *)
Theorem execute_action_returns a action command output en text :
  action !! "action" = Some command →
  env_execute (env a) command = (inr output, en) →
  (∀ line, Marker.first_nonblank_line text = Some line →
           Py.strip line ∉ sentinels) →
  (output !! "output" = Some (VStr text) →
   execute_action a action = (Ok output, set_env a en))
  ∧ (∀ b, output !! "output" = Some (VBytes b) →
          detect_and_decode b = inr text →
          execute_action a action
          = (Ok (<["output" := VStr text]> output), set_env a en)).
Proof.
  intros Hcmd Hrun Hno. unfold execute_action, run_command.
  rewrite Hcmd, Hrun. split.
  - intros Hout. rewrite Hout. by rewrite (has_finished_no_marker _ text).
  - intros b Hout Hdec. rewrite Hout, Hdec.
    rewrite (has_finished_no_marker _ text); [done| |done].
    apply lookup_insert_eq.
Qed.

(** X4.  A missing key is a [KeyError] that nothing in
    [execute_action] catches: an action without the key [action] is
    refused before the environment is asked, and an output of the
    environment without the key [output] is refused after the command
    has run, although [has_finished] alone would take such an output
    for an empty one. *)
Theorem execute_action_missing_key a action :
  (action !! "action" = None →
   execute_action a action = (Raise (PyErr KeyError), a))
  ∧ (∀ command output en,
       action !! "action" = Some command →
       env_execute (env a) command = (inr output, en) →
       output !! "output" = None →
       execute_action a action = (Raise (PyErr KeyError), set_env a en)
       ∧ has_finished output = Ok tt).
Proof.
  unfold execute_action, run_command. split.
  - by intros ->.
  - intros command output en -> -> Hout. rewrite Hout. split; [done|].
    unfold has_finished. by rewrite Hout.
Qed.

(** X5.  Below the limits, when the model answers with a response that
    has a key [content] and no key [role] or [self], [query] returns
    the response and appends one message to the log: its role is
    [assistant], and under every other key it holds what the response
    holds.  The model is in the state its [query] left. *)
Theorem query_appends a response m content :
  limits_exceeded a = false →
  model_query (model a) (messages a) = (inr response, m) →
  response !! "self" = None →
  response !! "role" = None →
  response !! "content" = Some content →
  ∃ msg a',
    query a = (Ok response, a')
    ∧ messages a' = messages a ++ [msg]
    ∧ model a' = m
    ∧ msg !! "role" = Some (VStr (lit "assistant"))
    ∧ ∀ k, k ≠ "role" → msg !! k = response !! k.
Proof.
  intros Hlim Hq Hself Hrole Hcontent. unfold query.
  rewrite Hlim, Hq, Hself, Hrole, Hcontent.
  eexists _, _. split_and!; [done..| |].
  - rewrite lookup_union_r by (by rewrite lookup_delete_ne).
    by rewrite lookup_insert_ne, lookup_singleton_eq.
  - intros k Hk. rewrite lookup_union.
    destruct (decide (k = "content")) as [->|Hkc].
    + by rewrite lookup_delete_eq, lookup_insert_eq, Hcontent.
    + rewrite lookup_delete_ne, lookup_insert_ne, lookup_singleton_ne by done.
      by destruct (response !! k).
Qed.

(** X6.  A response the model returns with a key [role] or [self], or
    without a key [content], cannot be unpacked into [add_message]:
    [query] raises a [TypeError] after the model was called, and the
    log is as before. *)
Theorem query_malformed_response a response m :
  limits_exceeded a = false →
  model_query (model a) (messages a) = (inr response, m) →
  is_Some (response !! "self") ∨ is_Some (response !! "role")
    ∨ response !! "content" = None →
  query a = (Raise (PyErr TypeError), set_model a m)
  ∧ messages (query a).2 = messages a.
Proof.
  intros Hlim Hq Hbad. unfold query. rewrite Hlim, Hq.
  destruct (response !! "self") eqn:Hs, (response !! "role") eqn:Hr,
    (response !! "content") eqn:Hc; try done.
  destruct Hbad as [[? ?]|[[? ?]|?]]; done.
Qed.

End Calls.


(** ** The log *)

Section Log.
Context {M E : Type} `{!Model M, !Environment E, !TemplateEngine, !Codecs}.
Implicit Types (a : DefaultAgent M E) (response action output : dict).

Lemma parse_action_raises a response e :
  parse_action a response = Raise e → e ≠ LimitsExceeded.
Proof.
  unfold parse_action. intros Heq ->.
  destruct (response !! "content") as [[]|]; try done.
  destruct (Re.findall _ _) as [|b [|b' l]]; [|done|];
    (destruct (render_template _ _ _) as [msg|e0] eqn:Hr; simpl in Heq;
     [done|]; by apply render_template_raises in Hr as [pe ->]).
Qed.

Lemma execute_action_raises a action e a' :
  execute_action a action = (Raise e, a') → e ≠ LimitsExceeded.
Proof.
  assert (∀ a0 text, timeout_error a0 action text ≠ Raise LimitsExceeded) as Ht.
  { intros a0 text. unfold timeout_error.
    destruct (render_template _ _ _) as [msg|e0] eqn:Hr; simpl; [done|].
    apply render_template_raises in Hr as [pe ->]. done. }
  assert (∀ d, rbind (has_finished d) (λ _, Ok d) ≠ Raise LimitsExceeded) as Hf.
  { intros d. unfold has_finished.
    destruct (default _ _); simpl; try done.
    destruct (Py.splitlines _); simpl; [done|]. by case_bool_decide. }
  unfold execute_action. intros Heq ->.
  destruct (run_command a action) as [[e0|out] a0].
  - destruct e0; injection Heq as Heq _; try done.
    + destruct (partial_output _); simpl in Heq; [done|]. by apply Ht in Heq.
    + by apply Ht in Heq.
  - injection Heq as Heq _. by apply Hf in Heq.
Qed.

(** X7.  [step] appends to the log and changes neither the config nor
    the extras.  A step that returns has appended two messages, the
    assistant's and the observation as a user message; a step that
    raises [LimitsExceeded] has appended nothing; a step that raises
    [FormatError], [ExecutionTimeoutError] or [Submitted] has appended
    the assistant's message alone; with any other exception at most
    that message. *)
Theorem step_log a r a' :
  step a = (r, a') →
  config a' = config a
  ∧ extra_template_vars a' = extra_template_vars a
  ∧ ∃ new,
      messages a' = messages a ++ new
      ∧ match r with
        | Ok _ =>
            ∃ assistant observation,
              new = [assistant; user_message observation]
              ∧ assistant !! "role" = Some (VStr (lit "assistant"))
        | Raise LimitsExceeded => new = []
        | Raise (PyErr _) => (length new ≤ 1)%nat
        | Raise _ =>
            ∃ assistant,
              new = [assistant]
              ∧ assistant !! "role" = Some (VStr (lit "assistant"))
        end.
Proof.
  unfold step. destruct (query a) as [r1 a1] eqn:Hq.
  apply query_frame in Hq
    as [[-> ->]|(x & m & _ & _ & [[-> [pe ->]]|
          (response & content & _ & -> & Hrole & Hcontent & ->)])].
  - intros [= <- <-]. split_and!; [done..|]. exists []. by rewrite app_nil_r.
  - intros [= <- <-]. split_and!; [done..|]. exists [].
    split; [by rewrite app_nil_r|simpl; lia].
  - set (assistant := delete "content" response
                        ∪ <["content" := content]> {["role" := VStr (lit "assistant")]}).
    assert (assistant !! "role" = Some (VStr (lit "assistant"))) as Hassistant.
    { unfold assistant. rewrite lookup_union_r by (by rewrite lookup_delete_ne).
      by rewrite lookup_insert_ne, lookup_singleton_eq. }
    unfold get_observation.
    destruct (parse_action _ response) as [action|e] eqn:Hparse.
    + destruct (execute_action _ action) as [[output|e] a2] eqn:Hexec;
        destruct (execute_action_frame _ _ _ _ Hexec) as [en ->].
      * destruct (render_template _ _ _) as [observation|e] eqn:Hrender.
        -- intros [= <- <-]. split_and!; [done..|].
           exists [assistant; user_message observation]. split.
           ++ simpl. rewrite (left_id_L ∅ (∪)). by rewrite <- (assoc_L (++)).
           ++ eauto.
        -- apply render_template_raises in Hrender as [pe ->].
           intros [= <- <-]. split_and!; [done..|]. exists [assistant].
           split; [done|simpl; lia].
      * intros [= <- <-]. split_and!; [done..|]. exists [assistant].
        split; [done|]. apply execute_action_raises in Hexec.
        destruct e; try done; try (simpl; lia); eauto.
    + intros [= <- <-]. split_and!; [done..|]. exists [assistant].
      split; [done|]. apply parse_action_raises in Hparse.
      destruct e; try done; try (simpl; lia); eauto.
Qed.

End Log.

(** ** The loop *)

Section Loop.
Context {M E : Type} `{!Model M, !Environment E, !TemplateEngine, !Codecs}.
Implicit Types (a : DefaultAgent M E) (response action output : dict).

(** What one step keeps and what it does to the model. *)
Lemma step_frame a r a' :
  step a = (r, a') →
  config a' = config a
  ∧ extra_template_vars a' = extra_template_vars a
  ∧ messages a `prefix_of` messages a'
  ∧ ((r = Raise LimitsExceeded ∧ a' = a)
     ∨ (limits_exceeded a = false
        ∧ ∃ x, model_query (model a) (messages a) = (x, model a')
            ∧ ∀ e, x = inl e → r = Raise (PyErr e))).
Proof.
  unfold step. destruct (query a) as [r1 a1] eqn:Hq. unfold query in Hq.
  destruct (limits_exceeded a) eqn:Hlim.
  { injection Hq as <- <-. intros [= <- <-]. split_and!; [done..|]. by left. }
  destruct (model_query _ _) as [[e|response] m] eqn:Hm.
  { injection Hq as <- <-. intros [= <- <-]. split_and!; [done..|].
    right. split; [done|]. exists (inl e). split; [done|]. by intros ? [= <-]. }
  assert (∀ a2 : DefaultAgent M E, ∀ r2,
    config a2 = config a → extra_template_vars a2 = extra_template_vars a →
    messages a `prefix_of` messages a2 → model a2 = m →
    (r2, a2) = (r, a') →
    config a' = config a
    ∧ extra_template_vars a' = extra_template_vars a
    ∧ messages a `prefix_of` messages a'
    ∧ ((r = Raise LimitsExceeded ∧ a' = a)
       ∨ (false = false
          ∧ ∃ x, (inr response, m) = (x, model a')
              ∧ ∀ e, x = inl e → r = Raise (PyErr e)))) as Hend.
  { intros a2 r2 ? ? ? <- [= <- <-]. split_and!; [done..|]. right.
    split; [done|]. by exists (inr response). }
  destruct (response !! "self"), (response !! "role"), (response !! "content");
    injection Hq as <- <-; try (by apply Hend).
  unfold get_observation.
  destruct (parse_action _ response) as [action|e].
  - destruct (execute_action _ action) as [[output|e] a2] eqn:Hexec;
      destruct (execute_action_frame _ _ _ _ Hexec) as [en ->].
    + destruct (render_template _ _ _) as [observation|e].
      * apply Hend; [done..| |done]. simpl. rewrite <- (assoc_L (++)).
        by apply prefix_app_r.
      * apply Hend; [done..| |done]. by apply prefix_app_r.
    + apply Hend; [done..| |done]. by apply prefix_app_r.
  - apply Hend; [done..| |done]. by apply prefix_app_r.
Qed.

(** The loop only ever appends to the log and changes neither the
    config nor the extras; what it returns is the last message. *)
Lemma run_loop_frame fuel a o a' :
  run_loop fuel a = (o, a') →
  config a' = config a
  ∧ extra_template_vars a' = extra_template_vars a
  ∧ messages a `prefix_of` messages a'
  ∧ ∀ status msg,
      o = Returned status msg →
      last (messages a') = Some (user_message msg)
      ∧ (status = "Submitted" ∨ (status = "LimitsExceeded" ∧ msg = [])).
Proof.
  revert a. induction fuel as [|n IH]; intros a; simpl.
  { intros [= <- <-]. by split_and!. }
  destruct (step a) as [r a1] eqn:Hstep.
  destruct (step_frame _ _ _ Hstep) as (Hc & Hx & Hp & _).
  assert (∀ a2 : DefaultAgent M E,
    config a2 = config a1 → extra_template_vars a2 = extra_template_vars a1 →
    messages a1 `prefix_of` messages a2 →
    run_loop n a2 = (o, a') →
    config a' = config a
    ∧ extra_template_vars a' = extra_template_vars a
    ∧ messages a `prefix_of` messages a'
    ∧ ∀ status msg,
        o = Returned status msg →
        last (messages a') = Some (user_message msg)
        ∧ (status = "Submitted" ∨ (status = "LimitsExceeded" ∧ msg = [])))
    as Hnext.
  { intros a2 Hc2 Hx2 Hp2 (Hc' & Hx' & Hp' & Hret)%IH.
    split_and!; [congruence..| |done]. by do 2 (etrans; [done|]). }
  destruct r as [output|e]; [by apply Hnext|].
  destruct (is_nonterminating e) eqn:Hnon.
  { apply Hnext; [done..|]. by apply prefix_app_r. }
  destruct (is_terminating e) eqn:Hterm.
  - intros [= <- <-]. split_and!; [done..| |].
    + simpl. etrans; [done|]. by apply prefix_app_r.
    + intros status msg [= <- <-]. split.
      * simpl. rewrite last_snoc. by rewrite (left_id_L ∅ (∪)).
      * destruct e; try done; eauto.
  - intros [= <- <-]. by split_and!.
Qed.

(** X8.  [run] starts the log anew and then only appends: whatever the
    log held before, unless an exception leaves [run], the log begins
    with the system message and the instance message as a user
    message, rendered after the task and the keyword arguments went
    into the extras.  The config is the one [run] found.  When [run]
    returns, the status is [Submitted] or [LimitsExceeded], the
    message of [LimitsExceeded] is the empty string, and the last
    message of the log is the returned message as a user message. *)
Theorem run_log fuel a task kwargs o a' :
  run fuel a task kwargs = (o, a') →
  config a' = config a
  ∧ extra_template_vars a'
    = dict_or (extra_template_vars a) (kwargs ∪ {["task" := VStr task]})
  ∧ ((∃ pe, o = Escaped (PyErr pe))
     ∨ ∃ sys inst rest,
         messages a'
         = (<["content" := VStr sys]> {["role" := VStr (lit "system")]})
             :: user_message inst :: rest)
  ∧ ∀ status msg,
      o = Returned status msg →
      last (messages a') = Some (user_message msg)
      ∧ (status = "Submitted" ∨ (status = "LimitsExceeded" ∧ msg = [])).
Proof.
  unfold run. cbv zeta.
  destruct (render_template _ _ _) as [sys|e1] eqn:H1.
  - match goal with
    | |- context [render_template ?x ?y ?z] =>
        destruct (render_template x y z) as [inst|e2] eqn:H2
    end.
    + intros Hloop. pose proof Hloop as (Hc & Hx & [rest Hp] & Hret)%run_loop_frame.
      split_and!; [done..| |done].
      destruct o as [status msg|e|].
      * right. exists sys, inst, rest. rewrite Hp. simpl.
        by rewrite !(left_id_L ∅ (∪)).
      * apply run_loop_escaped in Hloop as [Hn Ht]. left.
        destruct e; try done. eauto.
      * right. exists sys, inst, rest. rewrite Hp. simpl.
        by rewrite !(left_id_L ∅ (∪)).
    + apply render_template_raises in H2 as [pe ->].
      intros [= <- <-]. split_and!; [done..|eauto|done].
  - apply render_template_raises in H1 as [pe ->].
    intros [= <- <-]. split_and!; [done..|eauto|done].
Qed.

(** X9.  With the limit already reached [run] never calls the model
    nor the environment: it renders the two first messages and returns
    [LimitsExceeded] with the empty string as message, for every fuel
    of at least one turn, unless rendering fails. *)
Theorem run_limit_reached fuel a task kwargs :
  limits_exceeded a = true →
  model (run (S fuel) a task kwargs).2 = model a
  ∧ env (run (S fuel) a task kwargs).2 = env a
  ∧ ((run (S fuel) a task kwargs).1 = Returned "LimitsExceeded" []
     ∨ ∃ pe, (run (S fuel) a task kwargs).1 = Escaped (PyErr pe)).
Proof.
  intros Hlim. unfold run. cbv zeta.
  destruct (render_template _ _ _) as [sys|e1] eqn:H1.
  - match goal with
    | |- context [render_template ?x ?y ?z] =>
        destruct (render_template x y z) as [inst|e2] eqn:H2
    end.
    + cbn [run_loop]. unfold step, query.
      change (limits_exceeded (add_message _ _ _ _)) with (limits_exceeded a).
      rewrite Hlim. simpl. split_and!; [done..|]. by left.
    + apply render_template_raises in H2 as [pe ->]. simpl.
      split_and!; [done..|]. right. eauto.
  - apply render_template_raises in H1 as [pe ->]. simpl.
    split_and!; [done..|]. right. eauto.
Qed.

(** X10.  With a positive step limit and a model whose count of calls
    grows with every answer, [run]'s loop ends: after at most as many
    turns as steps are left, and one more, it has returned or an
    exception has left it. *)
Theorem run_loop_terminates a :
  0 < step_limit (config a) →
  (∀ (m m' : M) msgs response,
     model_query m msgs = (inr response, m') →
     model_n_calls m < model_n_calls m') →
  (run_loop
     (S (Z.to_nat (step_limit (config a) - model_n_calls (model a)))) a).1
  ≠ Running.
Proof.
  intros Hpos Hcount.
  assert (∀ (n : nat) a0,
    0 < step_limit (config a0) →
    (Z.to_nat (step_limit (config a0) - model_n_calls (model a0)) ≤ n)%nat →
    (run_loop (S n) a0).1 ≠ Running) as Hgen; [|by apply Hgen].
  clear a Hpos. intros n. induction n as [|n IH]; intros a Hpos Hn;
    cbn [run_loop]; destruct (step a) as [r a1] eqn:Hstep;
    destruct (step_frame _ _ _ Hstep)
      as (Hc & _ & _ & [[-> ->]|(Hlim & x & Hq & Herr)]);
    try done;
    (assert (model_n_calls (model a) < step_limit (config a)) as Hlt;
     [unfold limits_exceeded in Hlim;
      apply orb_false_iff in Hlim as [Hlim _];
      apply andb_false_iff in Hlim as [Hlim|Hlim];
      [apply Z.ltb_ge in Hlim; lia|by apply Z.leb_gt in Hlim]|]);
    [lia|].
  destruct x as [e|response]; [by rewrite (Herr e eq_refl)|].
  apply Hcount in Hq.
  assert (∀ a2 : DefaultAgent M E,
    config a2 = config a1 → model a2 = model a1 →
    (run_loop (S n) a2).1 ≠ Running) as Hnext.
  { intros a2 Hc2 Hm2. apply IH.
    - by rewrite Hc2, Hc.
    - rewrite Hc2, Hm2, Hc. lia. }
  destruct r as [output|e]; [by apply Hnext|].
  destruct (is_nonterminating e); [by apply Hnext|].
  by destruct (is_terminating e).
Qed.

(** X11.  When the content of the response holds no block or several,
    the step ends where [query] left it: it raises, the environment
    is not asked, and nothing is submitted. *)
Theorem step_without_action a response a1 content :
  query a = (Ok response, a1) →
  response !! "content" = Some (VStr content) →
  length (Re.findall action_regex content) ≠ 1%nat →
  ∃ e, step a = (Raise e, a1) ∧ env a1 = env a ∧ ∀ msg, e ≠ Submitted msg.
Proof.
  intros Hq Hc Hlen. unfold step. rewrite Hq.
  assert (env a1 = env a) as Henv.
  { apply query_frame in Hq
      as [[-> _]|(x & m & _ & _ & [[-> _]|(? & ? & _ & _ & _ & _ & ->)])];
      done. }
  unfold get_observation, parse_action. rewrite Hc.
  destruct (Re.findall _ _) as [|b [|b' l]]; [|done|];
    (destruct (render_template _ _ _) as [msg|e] eqn:Hr; simpl;
     [by eexists|];
     apply render_template_raises in Hr as [pe ->]; by eexists).
Qed.


End Loop.

(** ** These properties at work on the scripted agents *)

Lemma execute_action_returns_witness :
  execute_action
    (Examples.asking Scripted.example_config
       (inr (Scripted.text_output (lit "a.txt"))))
    Examples.ls_action
  = (Ok (Scripted.text_output (lit "a.txt")),
     set_env
       (Examples.asking Scripted.example_config
          (inr (Scripted.text_output (lit "a.txt"))))
       (Examples.after_command (VStr (lit "ls"))))
  ∧ execute_action
      (Examples.asking Scripted.example_config (inr Examples.bytes_output))
      Examples.ls_action
    = (Ok (<["output" := VStr (lit "partial")]> Examples.bytes_output),
       set_env
         (Examples.asking Scripted.example_config (inr Examples.bytes_output))
         (Examples.after_command (VStr (lit "ls")))).
Proof.
  split.
  - destruct (execute_action_returns
                (Examples.asking Scripted.example_config
                   (inr (Scripted.text_output (lit "a.txt"))))
                Examples.ls_action (VStr (lit "ls"))
                (Scripted.text_output (lit "a.txt"))
                (Examples.after_command (VStr (lit "ls"))) (lit "a.txt"))
      as [Htext _].
    + vm_compute. reflexivity.
    + vm_compute. reflexivity.
    + intros line Hline. vm_compute in Hline. injection Hline as <-.
      apply (bool_decide_unpack _). vm_compute. exact I.
    + apply Htext. vm_compute. reflexivity.
  - destruct (execute_action_returns
                (Examples.asking Scripted.example_config
                   (inr Examples.bytes_output))
                Examples.ls_action (VStr (lit "ls")) Examples.bytes_output
                (Examples.after_command (VStr (lit "ls"))) (lit "partial"))
      as [_ Hbytes].
    + vm_compute. reflexivity.
    + vm_compute. reflexivity.
    + intros line Hline. vm_compute in Hline. injection Hline as <-.
      apply (bool_decide_unpack _). vm_compute. exact I.
    + apply (Hbytes Examples.partial_bytes); vm_compute; reflexivity.
Defined.

Lemma execute_action_output_is_text_witness :
  Examples.decoded_output !! "output" ≠ Some (VBytes Examples.partial_bytes).
Proof.
  apply (execute_action_output_is_text
           (Examples.asking Scripted.example_config (inr Examples.bytes_output))
           Examples.ls_action Examples.decoded_output
           (execute_action
              (Examples.asking Scripted.example_config
                 (inr Examples.bytes_output))
              Examples.ls_action).2).
  vm_compute. reflexivity.
Defined.

Lemma query_appends_witness :
  ∃ msg a',
    query (Examples.asking Scripted.example_config (inl TimeoutError))
    = (Ok Examples.one_block, a')
    ∧ messages a' = [msg]
    ∧ Scripted.n_calls (model a') = 1
    ∧ msg !! "role" = Some (VStr (lit "assistant"))
    ∧ ∀ k, k ≠ "role" → msg !! k = Examples.one_block !! k.
Proof.
  destruct (query_appends
              (Examples.asking Scripted.example_config (inl TimeoutError))
              Examples.one_block
              {| Scripted.replies := []; Scripted.n_calls := 1;
                 Scripted.cost := 0%float; Scripted.model_vars := ∅ |}
              (VStr (Scripted.fenced "ls")))
    as (msg & a' & Hq & Hlog & Hm & Hrole & Hrest);
    [vm_compute; reflexivity..|].
  exists msg, a'. split_and!; [done|done| |done|done]. by rewrite Hm.
Defined.

Lemma query_malformed_response_witness :
  messages
    (query
       (Scripted.make_agent Scripted.example_config
          (Scripted.fresh_model
             [inr (<["role" := VStr (lit "assistant")]> Examples.one_block)])
          (Scripted.fresh_env []))).2
  = [].
Proof.
  destruct (query_malformed_response
              (Scripted.make_agent Scripted.example_config
                 (Scripted.fresh_model
                    [inr (<["role" := VStr (lit "assistant")]> Examples.one_block)])
                 (Scripted.fresh_env []))
              (<["role" := VStr (lit "assistant")]> Examples.one_block)
              {| Scripted.replies := []; Scripted.n_calls := 1;
                 Scripted.cost := 0%float; Scripted.model_vars := ∅ |})
    as [_ Hlog].
  - vm_compute. reflexivity.
  - vm_compute. reflexivity.
  - right. left. eexists. vm_compute. reflexivity.
  - exact Hlog.
Defined.

Lemma step_log_witness :
  ∃ assistant observation,
    messages
      (step (Examples.asking Scripted.example_config
               (inr (Scripted.text_output (lit "a.txt"))))).2
    = [assistant; user_message observation]
    ∧ assistant !! "role" = Some (VStr (lit "assistant")).
Proof.
  destruct (step_log
              (Examples.asking Scripted.example_config
                 (inr (Scripted.text_output (lit "a.txt"))))
              (Ok (Scripted.text_output (lit "a.txt")))
              (step (Examples.asking Scripted.example_config
                       (inr (Scripted.text_output (lit "a.txt"))))).2)
    as (_ & _ & new & Hlog & assistant & observation & -> & Hrole).
  - vm_compute. reflexivity.
  - exists assistant, observation. split; [exact Hlog | exact Hrole].
Defined.

Lemma run_log_witness :
  last
    (messages
       (run 3
          (Examples.asking Scripted.example_config
             (inr (Scripted.text_output Examples.answer)))
          (lit "list files") ∅).2)
  = Some (user_message (lit "Answer: 42" ++ [10%N])).
Proof.
  destruct (run_log 3
              (Examples.asking Scripted.example_config
                 (inr (Scripted.text_output Examples.answer)))
              (lit "list files") ∅
              (Returned "Submitted" (lit "Answer: 42" ++ [10%N]))
              (run 3
                 (Examples.asking Scripted.example_config
                    (inr (Scripted.text_output Examples.answer)))
                 (lit "list files") ∅).2)
    as (_ & _ & _ & Hret).
  - vm_compute. reflexivity.
  - by destruct (Hret _ _ eq_refl) as [Hlast _].
Defined.

Lemma run_limit_reached_witness :
  (run 1 Examples.spent (lit "list files") ∅).1 = Returned "LimitsExceeded" []
  ∧ Scripted.n_calls (model (run 1 Examples.spent (lit "list files") ∅).2) = 1.
Proof.
  destruct (run_limit_reached 0 Examples.spent (lit "list files") ∅)
    as (Hmodel & _ & Hout); [vm_compute; reflexivity|].
  split; [|by rewrite Hmodel].
  destruct Hout as [Hout|[pe Hout]]; [exact Hout|].
  vm_compute in Hout. discriminate Hout.
Defined.

Lemma run_loop_terminates_witness :
  (run_loop 3 Examples.limited).1 ≠ Running.
Proof.
  change 3%nat
    with (S (Z.to_nat (step_limit (config Examples.limited)
                       - model_n_calls (model Examples.limited)))).
  apply (run_loop_terminates Examples.limited); [vm_compute; reflexivity|].
  intros m m' msgs response. simpl.
  destruct (Scripted.replies m); [done|]. intros [= _ <-]. simpl. lia.
Defined.

Lemma step_without_action_witness :
  ∃ e,
    (step (Scripted.make_agent Scripted.example_config
             (Scripted.fresh_model [inr (Scripted.reply (lit "no block"))])
             (Scripted.fresh_env [inr (Scripted.text_output (lit "a.txt"))]))).1
    = Raise e
    ∧ ∀ msg, e ≠ Submitted msg.
Proof.
  set (a := Scripted.make_agent _ _ _).
  destruct (step_without_action a (Scripted.reply (lit "no block"))
              (query a).2 (lit "no block"))
    as (e & Hstep & _ & Hnot).
  - vm_compute. reflexivity.
  - vm_compute. reflexivity.
  - vm_compute. lia.
  - exists e. rewrite Hstep. split; [reflexivity | exact Hnot].
Defined.

